(** * Conversation memory of the voice assistant

    A shallow embedding of [memory_system.py] (the in-process facade
    [MemoryManager] over [MemoryDatabase]) and of the tool surface of
    [memory_server.py] ([MemoryServer]), followed by the properties of the
    store, the profile extractor, the context builder and the facade.

    Modelling conventions.
    - A Python [str] is a sequence of Unicode code points: [list N].
      Literals are written with [u8], which decodes the UTF-8 bytes of a
      source literal.
    - The SQLite file is the record [database]; a table is the list of its
      rows in rowid order.
    - The wall clock is an input of the environment: a [world] carries the
      sequence of readings that successive [datetime.now()] calls return.
    - A method is a computation in the monad [M]: it threads the world and
      either returns a value or raises a Python exception. *)

From Stdlib Require Import String Ascii.
From Stdlib Require Import List NArith ZArith QArith Bool Lia.
From Stdlib Require Import Sorting.Sorted Sorting.Permutation Lqa.
Import ListNotations.

Set Implicit Arguments.

(* ===================================================================== *)
(** ** Text *)
(* ===================================================================== *)

(** A Python string: its code points. *)
Definition str : Type := list N.

(** UTF-8 decoding of a byte sequence (well-formed input assumed; a
    truncated trailing sequence is dropped). *)
Fixpoint utf8_decode (bs : list N) : str :=
  match bs with
  | [] => []
  | b :: r =>
    if (b <? 128)%N then b :: utf8_decode r
    else if (b <? 224)%N then
      match r with
      | c1 :: r1 => ((b - 192) * 64 + (c1 - 128))%N :: utf8_decode r1
      | _ => []
      end
    else if (b <? 240)%N then
      match r with
      | c1 :: c2 :: r2 =>
        ((b - 224) * 4096 + (c1 - 128) * 64 + (c2 - 128))%N :: utf8_decode r2
      | _ => []
      end
    else
      match r with
      | c1 :: c2 :: c3 :: r3 =>
        ((b - 240) * 262144 + (c1 - 128) * 4096 + (c2 - 128) * 64 + (c3 - 128))%N
          :: utf8_decode r3
      | _ => []
      end
  end.

(** The Python string denoted by a source literal. *)
Definition u8 (s : string) : str :=
  utf8_decode (map N_of_ascii (list_ascii_of_string s)).

(** The line feed, written [\n] in the source. *)
Definition nl : str := [10%N].

Fixpoint str_eqb (a b : str) : bool :=
  match a, b with
  | [], [] => true
  | x :: a', y :: b' => (x =? y)%N && str_eqb a' b'
  | _, _ => false
  end.

(** Comparison of TEXT values under SQLite's BINARY collation: byte-wise on
    the UTF-8 encoding, which orders strings as their code points do. *)
Fixpoint str_compare (a b : str) : comparison :=
  match a, b with
  | [], [] => Eq
  | [], _ :: _ => Lt
  | _ :: _, [] => Gt
  | x :: a', y :: b' =>
    match (x ?= y)%N with
    | Eq => str_compare a' b'
    | c => c
    end
  end.

(** [sep.join(parts)]. *)
Fixpoint join (sep : str) (parts : list str) : str :=
  match parts with
  | [] => []
  | [p] => p
  | p :: rest => p ++ sep ++ join sep rest
  end.

(** [s.startswith(p)], also returning what follows the prefix. *)
Fixpoint strip_prefix (p s : str) : option str :=
  match p, s with
  | [], _ => Some s
  | _ :: _, [] => None
  | x :: p', y :: s' => if (x =? y)%N then strip_prefix p' s' else None
  end.

Fixpoint uint_digits (d : Decimal.uint) : str :=
  match d with
  | Decimal.Nil => []
  | Decimal.D0 d' => 48%N :: uint_digits d'
  | Decimal.D1 d' => 49%N :: uint_digits d'
  | Decimal.D2 d' => 50%N :: uint_digits d'
  | Decimal.D3 d' => 51%N :: uint_digits d'
  | Decimal.D4 d' => 52%N :: uint_digits d'
  | Decimal.D5 d' => 53%N :: uint_digits d'
  | Decimal.D6 d' => 54%N :: uint_digits d'
  | Decimal.D7 d' => 55%N :: uint_digits d'
  | Decimal.D8 d' => 56%N :: uint_digits d'
  | Decimal.D9 d' => 57%N :: uint_digits d'
  end.

(** [str(n)] for a non-negative integer. *)
Definition decimal (n : N) : str := uint_digits (N.to_uint n).

(** [%0wd]: the decimal digits of [n], zero-padded on the left to width [w]. *)
Definition zero_pad (w : nat) (n : N) : str :=
  let d := decimal n in repeat 48%N (w - length d) ++ d.

(** The tables of the Python runtime that the code consults: [str.lower]
    and the regular-expression classes [\w] and [\d] on [str] patterns.
    They are Unicode-wide; the embedding takes them as an interface and
    evaluates concrete scenarios with the instance [latin1] below. *)
Class Unicode : Type := {
  str_lower : str -> str;
  re_word : N -> bool;
  re_digit : N -> bool
}.

(** The tables of Basic Latin and the Latin-1 Supplement (U+0000 to
    U+00FF). Other code points are left unchanged by [lower] and are in
    neither class. *)
Definition latin1_lower (c : N) : N :=
  if ((65 <=? c) && (c <=? 90))%N then (c + 32)%N
  else if ((192 <=? c) && (c <=? 222) && negb (c =? 215))%N then (c + 32)%N
  else c.

Definition latin1_digit (c : N) : bool := ((48 <=? c) && (c <=? 57))%N.

Definition latin1_word (c : N) : bool :=
  latin1_digit c
  || ((65 <=? c) && (c <=? 90))%N
  || ((97 <=? c) && (c <=? 122))%N
  || (c =? 95)%N
  || (c =? 170)%N || (c =? 178)%N || (c =? 179)%N || (c =? 181)%N
  || (c =? 185)%N || (c =? 186)%N
  || ((188 <=? c) && (c <=? 190))%N
  || ((192 <=? c) && (c <=? 255) && negb (c =? 215) && negb (c =? 247))%N.

Definition latin1 : Unicode := {|
  str_lower := map latin1_lower;
  re_word := latin1_word;
  re_digit := latin1_digit
|}.

(* ===================================================================== *)
(** ** Python values, exceptions and the clock *)
(* ===================================================================== *)

(** The values a caller can pass where the code expects a string or a
    flag (the tool surface receives a [Dict[str, Any]] decoded from JSON). *)
Inductive pyval : Type :=
| PNone
| PBool (b : bool)
| PInt (z : Z)
| PFloat (q : Q)
| PStr (s : str).

(** [type(v).__name__]. *)
Definition type_name (v : pyval) : str :=
  match v with
  | PNone => u8 "NoneType"
  | PBool _ => u8 "bool"
  | PInt _ => u8 "int"
  | PFloat _ => u8 "float"
  | PStr _ => u8 "str"
  end.

(** [bool(v)], as tested by [if not v]. *)
Definition truthy (v : pyval) : bool :=
  match v with
  | PNone => false
  | PBool b => b
  | PInt z => negb (z =? 0)%Z
  | PFloat q => negb (Qeq_bool q 0)
  | PStr s => match s with [] => false | _ => true end
  end.

Inductive exn : Type :=
| AttributeError (obj_type attr : str).

(** [str(e)]. *)
Definition exn_message (e : exn) : str :=
  match e with
  | AttributeError ty attr =>
    u8 "'" ++ ty ++ u8 "' object has no attribute '" ++ attr ++ u8 "'"
  end.

Record datetime : Type := {
  year : N; month : N; day : N;
  hour : N; minute : N; second : N; microsecond : N
}.

(** [dt.isoformat()]: the fraction is omitted when the microsecond is 0. *)
Definition isoformat (dt : datetime) : str :=
  zero_pad 4 (year dt) ++ u8 "-" ++ zero_pad 2 (month dt) ++ u8 "-"
  ++ zero_pad 2 (day dt) ++ u8 "T" ++ zero_pad 2 (hour dt) ++ u8 ":"
  ++ zero_pad 2 (minute dt) ++ u8 ":" ++ zero_pad 2 (second dt)
  ++ (if (microsecond dt =? 0)%N then []
      else u8 "." ++ zero_pad 6 (microsecond dt)).

(** [dt.strftime("%Y%m%d_%H%M%S")]. *)
Definition strftime_session (dt : datetime) : str :=
  zero_pad 4 (year dt) ++ zero_pad 2 (month dt) ++ zero_pad 2 (day dt)
  ++ u8 "_" ++ zero_pad 2 (hour dt) ++ zero_pad 2 (minute dt)
  ++ zero_pad 2 (second dt).

(* ===================================================================== *)
(** ** The persisted relations *)
(* ===================================================================== *)

(** A row of [conversations]. The columns [context_summary] (never
    written, always NULL) and [created_at] (filled in by SQLite, never
    read) are left out. The importance is a REAL; its finite values are
    modelled by rationals, on which the code only compares. *)
Record conversation : Type := {
  id : N;
  timestamp : str;
  session_id : str;
  user_message : str;
  assistant_response : str;
  importance_score : Q
}.

(** A row of [memory_summaries]: declared by [init_database], written by
    nothing. *)
Record memory_summary : Type := {
  summary_id : N;
  summary_session_id : str;
  summary_text : str;
  start_timestamp : str;
  end_timestamp : str;
  conversation_count : Z
}.

(** A row of [user_profile]. *)
Record profile_fact : Type := {
  key : str;
  value : str;
  last_updated : str
}.

(** The database file. Each table lists its rows in rowid order;
    [conversations_seq] is the [sqlite_sequence] entry that AUTOINCREMENT
    keeps for [conversations]. *)
Record database : Type := {
  conversations : list conversation;
  conversations_seq : N;
  memory_summaries : list memory_summary;
  user_profile : list profile_fact
}.

(** The file right after [init_database] has created it. *)
Definition empty_database : database := {|
  conversations := [];
  conversations_seq := 0;
  memory_summaries := [];
  user_profile := []
|}.

(** The database together with the environment's clock: [w_clock n] is
    what the [n]-th call of [datetime.now()] returns, [w_ticks] counts the
    calls made so far. *)
Record world : Type := {
  w_db : database;
  w_clock : nat -> datetime;
  w_ticks : nat
}.

(* ===================================================================== *)
(** ** Computations *)
(* ===================================================================== *)

Definition M (A : Type) : Type := world -> (exn + A) * world.

Definition ret {A : Type} (a : A) : M A := fun w => (inr a, w).

Definition bind {A B : Type} (m : M A) (k : A -> M B) : M B :=
  fun w =>
    match m w with
    | (inl e, w') => (inl e, w')
    | (inr a, w') => k a w'
    end.

Definition raise {A : Type} (e : exn) : M A := fun w => (inl e, w).

(** [try: m  except Exception as e: h e]. *)
Definition try_except {A : Type} (m : M A) (h : exn -> M A) : M A :=
  fun w =>
    match m w with
    | (inl e, w') => h e w'
    | (inr a, w') => (inr a, w')
    end.

Declare Scope py_scope.
Delimit Scope py_scope with py.
Notation "x <- m ;; k" := (bind m (fun x => k))
  (at level 61, m at next level, right associativity) : py_scope.
Notation "m ;; k" := (bind m (fun _ => k))
  (at level 61, right associativity) : py_scope.
Open Scope py_scope.

(** [datetime.now()]. *)
Definition datetime_now : M datetime :=
  fun w =>
    (inr (w_clock w (w_ticks w)),
     {| w_db := w_db w; w_clock := w_clock w; w_ticks := S (w_ticks w) |}).

(** A SELECT: reads the database. *)
Definition query {A : Type} (f : database -> A) : M A :=
  fun w => (inr (f (w_db w)), w).

(** A committed write that also yields a value (such as the new rowid). *)
Definition execute {A : Type} (f : database -> A * database) : M A :=
  fun w =>
    let (a, db') := f (w_db w) in
    (inr a, {| w_db := db'; w_clock := w_clock w; w_ticks := w_ticks w |}).

(* ===================================================================== *)
(** ** SQL building blocks *)
(* ===================================================================== *)

Section OrderBy.
Variable A : Type.
(** [precedes a b]: the ORDER BY terms allow [a] to come before [b]. *)
Variable precedes : A -> A -> bool.

Fixpoint insert_row (x : A) (l : list A) : list A :=
  match l with
  | [] => [x]
  | y :: l' => if precedes x y then x :: l else y :: insert_row x l'
  end.

(** ORDER BY over the rows of a table scan. Rows that tie keep their
    scan order. *)
Fixpoint order_by (l : list A) : list A :=
  match l with
  | [] => []
  | x :: l' => insert_row x (order_by l')
  end.

(** [LIMIT n]: a negative [n] puts no bound on the result. *)
Definition sql_limit (n : Z) (l : list A) : list A :=
  if (n <? 0)%Z then l else firstn (Z.to_nat n) l.
End OrderBy.

(** Case folding of the LIKE operator: the 26 letters of ASCII only. *)
Definition like_fold (c : N) : N :=
  if ((65 <=? c) && (c <=? 90))%N then (c + 32)%N else c.

Definition percent : N := 37%N.
Definition underscore : N := 95%N.

(** The part of a text before its first U+0000: SQLite's LIKE reads its
    two operands as C strings. *)
Fixpoint c_string (s : str) : str :=
  match s with
  | [] => []
  | c :: s' => if (c =? 0)%N then [] else c :: c_string s'
  end.

(** The matching of LIKE over the characters of pattern and text (no
    ESCAPE clause): [%] matches any run of characters, [_] any one
    character, any other character itself up to ASCII case. *)
Fixpoint like_chars (pat s : str) : bool :=
  match pat with
  | [] => match s with [] => true | _ :: _ => false end
  | c :: pat' =>
    if (c =? percent)%N then
      (fix skip (t : str) : bool :=
         like_chars pat' t
         || match t with [] => false | _ :: t' => skip t' end) s
    else
      match s with
      | [] => false
      | d :: s' =>
        ((c =? underscore) || (like_fold c =? like_fold d))%N
        && like_chars pat' s'
      end
  end.

(** [s LIKE pat]: pattern and text are both cut at their first U+0000.
    SQLite refuses a pattern of more than 50000 bytes; the model has no
    such refusal, and the properties of the search are stated for patterns
    within that length. *)
Definition like (pat s : str) : bool :=
  like_chars (c_string pat) (c_string s).

(** What the SQLite binding accepts as a parameter: an integer of 64 bits,
    and a text that can be encoded as UTF-8 (no lone surrogate). The
    model binds every value; the properties that depend on it are stated
    for accepted values. *)
Definition int64 (z : Z) : Prop :=
  (- 2 ^ 63 <= z < 2 ^ 63)%Z.

Definition is_surrogate (c : N) : bool :=
  ((55296 <=? c) && (c <=? 57343))%N.

Definition encodable (s : str) : bool :=
  forallb (fun c => negb (is_surrogate c)) s.

(** The number of bytes of the UTF-8 encoding. *)
Definition utf8_bytes (c : N) : N :=
  if (c <? 128)%N then 1%N
  else if (c <? 2048)%N then 2%N
  else if (c <? 65536)%N then 3%N
  else 4%N.

Definition utf8_length (s : str) : N :=
  fold_right (fun c n => (utf8_bytes c + n)%N) 0%N s.

(** SQLITE_MAX_LIKE_PATTERN_LENGTH. *)
Definition like_pattern_limit : N := 50000%N.

(** The text holds no U+0000. *)
Definition nul_free (s : str) : bool :=
  forallb (fun c => negb (c =? 0)%N) s.

(* ===================================================================== *)
(** ** class MemoryDatabase *)
(* ===================================================================== *)

(** The dict built from a selected conversation row, with the keys
    ["timestamp"], ["user"], ["assistant"] and ["importance"]. *)
Record conv_dict : Type := {
  d_timestamp : str;
  user : str;
  assistant : str;
  importance : Q
}.

Module MemoryDatabase.

Definition row_dict (c : conversation) : conv_dict := {|
  d_timestamp := timestamp c;
  user := user_message c;
  assistant := assistant_response c;
  importance := importance_score c
|}.

(** The rowid AUTOINCREMENT assigns: one more than the largest id the
    table holds or ever held. *)
Definition next_id (db : database) : N :=
  (fold_right N.max (conversations_seq db) (map id (conversations db)) + 1)%N.

Definition insert_conversation (c : conversation) (db : database)
  : N * database :=
  (id c,
   {| conversations := conversations db ++ [c];
      conversations_seq := id c;
      memory_summaries := memory_summaries db;
      user_profile := user_profile db |}).

(** [store_conversation(user_msg, assistant_msg, session_id, importance)];
    returns [cursor.lastrowid]. The parameters are taken at the types of
    the signature and as values that the binding accepts: the INSERT of
    the model takes every text, where SQLite refuses one that cannot be
    encoded as UTF-8. *)
Definition store_conversation (user_msg assistant_msg session : str)
    (importance : Q) : M N :=
  now <- datetime_now ;;
  execute (fun db =>
    insert_conversation
      {| id := next_id db;
         timestamp := isoformat now;
         session_id := session;
         user_message := user_msg;
         assistant_response := assistant_msg;
         importance_score := importance |} db).

(** ORDER BY timestamp DESC. *)
Definition recent_precedes (a b : conversation) : bool :=
  match str_compare (timestamp a) (timestamp b) with
  | Lt => false
  | _ => true
  end.

Definition select_recent (limit : Z) (session : str) (db : database)
  : list conv_dict :=
  map row_dict
    (sql_limit limit
       (order_by recent_precedes
          (filter (fun c => str_eqb (session_id c) session)
             (conversations db)))).

(** The default of the [session_id] parameter. *)
Definition default_session : str := u8 "default".

(** [get_recent_conversations(limit, session_id)]. *)
Definition get_recent_conversations (limit : Z) (session : str)
  : M (list conv_dict) :=
  query (select_recent limit session).

(** ORDER BY importance_score DESC, timestamp DESC. *)
Definition search_precedes (a b : conversation) : bool :=
  match Qcompare (importance_score a) (importance_score b) with
  | Gt => true
  | Lt => false
  | Eq => recent_precedes a b
  end.

(** The pattern [f'%{query}%']. *)
Definition like_pattern (q : str) : str := [percent] ++ q ++ [percent].

(** WHERE user_message LIKE ? OR assistant_response LIKE ?. *)
Definition search_where (q : str) (c : conversation) : bool :=
  like (like_pattern q) (user_message c)
  || like (like_pattern q) (assistant_response c).

Definition select_search (q : str) (limit : Z) (db : database)
  : list conv_dict :=
  map row_dict
    (sql_limit limit
       (order_by search_precedes
          (filter (search_where q) (conversations db)))).

(** [search_conversations(query, limit)], for a query and a limit that
    the binding accepts and a pattern within [like_pattern_limit]. *)
Definition search_conversations (q : str) (limit : Z)
  : M (list conv_dict) :=
  query (select_search q limit).

(** INSERT OR REPLACE on the primary key: the row holding the key, if
    any, is deleted and the new row gets a fresh, largest rowid. *)
Definition replace_fact (f : profile_fact) (db : database) : database :=
  {| conversations := conversations db;
     conversations_seq := conversations_seq db;
     memory_summaries := memory_summaries db;
     user_profile :=
       filter (fun g => negb (str_eqb (key g) (key f))) (user_profile db)
       ++ [f] |}.

(** [update_user_profile(key, value)]. *)
Definition update_user_profile (k v : str) : M unit :=
  now <- datetime_now ;;
  execute (fun db =>
    (tt, replace_fact
           {| key := k; value := v; last_updated := isoformat now |} db)).

(** [get_user_profile()]: the dict of the selected (key, value) rows, in
    insertion order. *)
Definition get_user_profile : M (list (str * str)) :=
  query (fun db => map (fun f => (key f, value f)) (user_profile db)).

(** The two DELETE statements. *)
Definition delete_conversations (db : database) : database :=
  {| conversations := [];
     conversations_seq := conversations_seq db;
     memory_summaries := memory_summaries db;
     user_profile := user_profile db |}.

Definition delete_memory_summaries (db : database) : database :=
  {| conversations := conversations db;
     conversations_seq := conversations_seq db;
     memory_summaries := [];
     user_profile := user_profile db |}.

(** [clear_memory()]. *)
Definition clear_memory : M unit :=
  execute (fun db =>
    (tt, delete_memory_summaries (delete_conversations db))).

End MemoryDatabase.

(* ===================================================================== *)
(** ** Regular expressions of the profile extractor *)
(* ===================================================================== *)

Inductive char_class : Type :=
| word_class    (* \w *)
| digit_class.  (* \d *)

(** Every pattern of the extractor is a literal, one capturing group of a
    repeated class, and a literal: [r"tengo (\d+) años"] is
    [prefix = "tengo "], [group_class = \d], [suffix = " años"]. *)
Record pattern : Type := {
  prefix : str;
  group_class : char_class;
  suffix : str
}.

Definition pat (p : string) (k : char_class) (s : string) : pattern :=
  {| prefix := u8 p; group_class := k; suffix := u8 s |}.

(** The suffix of a pattern that ends with its group. *)
Definition no_suffix : string := EmptyString.

(** [json.dumps] pieces used by [get_profile]. *)
Definition quote : N := 34%N.
Definition backslash : N := 92%N.

Definition hex_digit (n : N) : N :=
  if (n <? 10)%N then (48 + n)%N else (87 + n)%N.

(** The escape of one character inside a JSON string, [ensure_ascii=False]. *)
Definition json_escape (c : N) : str :=
  if (c =? quote)%N then [backslash; quote]
  else if (c =? backslash)%N then [backslash; backslash]
  else if (c =? 10)%N then backslash :: u8 "n"
  else if (c =? 13)%N then backslash :: u8 "r"
  else if (c =? 9)%N then backslash :: u8 "t"
  else if (c =? 8)%N then backslash :: u8 "b"
  else if (c =? 12)%N then backslash :: u8 "f"
  else if (c <? 32)%N then
    backslash :: u8 "u00" ++ [hex_digit (c / 16); hex_digit (c mod 16)]
  else [c].

Definition json_string (s : str) : str :=
  [quote] ++ flat_map json_escape s ++ [quote].

(** [json.dumps(d, indent=2, ensure_ascii=False)] for a dict of strings. *)
Definition json_dumps (d : list (str * str)) : str :=
  match d with
  | [] => u8 "{}"
  | _ =>
    u8 "{" ++ nl ++ u8 "  "
    ++ join (u8 "," ++ nl ++ u8 "  ")
         (map (fun kv => json_string (fst kv) ++ u8 ": " ++ json_string (snd kv)) d)
    ++ nl ++ u8 "}"
  end.

Section Regex.
Context {U : Unicode}.

Definition in_class (k : char_class) (c : N) : bool :=
  match k with
  | word_class => re_word c
  | digit_class => re_digit c
  end.

(** Length of the longest run of class characters at the head of [s]:
    what the greedy [+] consumes first. *)
Fixpoint run_length (k : char_class) (s : str) : nat :=
  match s with
  | [] => 0
  | c :: s' => if in_class k c then S (run_length k s') else 0
  end.

(** Backtracking of the group from [n] characters down to one, until the
    suffix matches what follows. *)
Fixpoint backtrack (n : nat) (rest suf : str) : option str :=
  match n with
  | O => None
  | S n' =>
    match strip_prefix suf (skipn n rest) with
    | Some _ => Some (firstn n rest)
    | None => backtrack n' rest suf
    end
  end.

(** A match anchored at the head of [s]; yields [group(1)]. *)
Definition match_here (p : pattern) (s : str) : option str :=
  match strip_prefix (prefix p) s with
  | None => None
  | Some rest =>
    backtrack (run_length (group_class p) rest) rest (suffix p)
  end.

(** [re.search(p, s)]: the leftmost match; yields [group(1)]. *)
Fixpoint re_search (p : pattern) (s : str) : option str :=
  match match_here p s with
  | Some g => Some g
  | None =>
    match s with
    | [] => None
    | _ :: s' => re_search p s'
    end
  end.

(** [v.lower()]: only a [str] has the method. *)
Definition lower (v : pyval) : M str :=
  match v with
  | PStr s => ret (str_lower s)
  | _ => raise (AttributeError (type_name v) (u8 "lower"))
  end.

End Regex.

(** The text bound to the SQL parameter of the user message. The binding
    is reached with a [str] only: on any other value [lower] has raised
    before. *)
Definition text_param (v : pyval) : str :=
  match v with
  | PStr s => s
  | _ => []
  end.

(* ===================================================================== *)
(** ** class MemoryManager (memory_system.py) *)
(* ===================================================================== *)

Module MemoryManager.
Section Methods.
Context {U : Unicode}.

(** The instance state: [self.db] is the database of the world,
    [self.current_session] the token fixed by [__init__]. *)
Record t : Type := {
  current_session : str
}.

(** The [patterns] dict of [_extract_profile_info], in insertion order. *)
Definition patterns : list (str * list pattern) :=
  [ (u8 "name",
     [ pat "mi nombre es " word_class no_suffix;
       pat "me llamo " word_class no_suffix;
       pat "soy " word_class no_suffix ]);
    (u8 "age",
     [ pat "tengo " digit_class " años";
       pat "mi edad es " digit_class no_suffix ]);
    (u8 "profession",
     [ pat "soy " word_class no_suffix;
       pat "trabajo como " word_class no_suffix;
       pat "estudio " word_class no_suffix ]);
    (u8 "location",
     [ pat "vivo en " word_class no_suffix;
       pat "soy de " word_class no_suffix ]) ].

(** The inner loop [for pattern in pattern_list: ...; break]. *)
Fixpoint for_patterns (info_type : str) (pattern_list : list pattern)
    (msg_lower : str) : M unit :=
  match pattern_list with
  | [] => ret tt
  | p :: rest =>
    match re_search p msg_lower with
    | Some v => MemoryDatabase.update_user_profile info_type v
    | None => for_patterns info_type rest msg_lower
    end
  end.

(** The outer loop [for info_type, pattern_list in patterns.items()]. *)
Fixpoint for_info_types (items : list (str * list pattern))
    (msg_lower : str) : M unit :=
  match items with
  | [] => ret tt
  | (info_type, pattern_list) :: rest =>
    for_patterns info_type pattern_list msg_lower ;;
    for_info_types rest msg_lower
  end.

(** [_extract_profile_info(user_message)]; the method of [MemoryServer]
    has the same body. *)
Definition _extract_profile_info (user_message : pyval) : M unit :=
  msg_lower <- lower user_message ;;
  for_info_types patterns msg_lower.

(** The two lines rendered for one exchange. *)
Definition exchange_lines (conv : conv_dict) : list str :=
  [ u8 "Usuario: " ++ user conv; u8 "Asistente: " ++ assistant conv ].

(** [l[-3:]]. *)
Definition last3 (A : Type) (l : list A) : list A :=
  skipn (length l - 3) l.

(** The part of [get_context] after the two reads: what is appended to
    [context_parts] for the profile and for the recent exchanges. *)
Definition profile_part (profile : list (str * str)) : list str :=
  match profile with
  | [] => []
  | _ =>
    [ u8 "Información del usuario: "
      ++ join (u8 ", ") (map (fun kv => fst kv ++ u8 ": " ++ snd kv) profile) ]
  end.

Definition recent_part (recent : list conv_dict) : list str :=
  match recent with
  | [] => []
  | _ =>
    u8 "Conversación reciente:" :: flat_map exchange_lines (rev (last3 recent))
  end.

Definition relevant_part (relevant : list conv_dict) : list str :=
  match relevant with
  | [] => []
  | _ =>
    u8 "Conversaciones relevantes anteriores:" :: flat_map exchange_lines relevant
  end.

Definition instruction_suffix (current_message : str) : str :=
  nl ++ nl ++ u8 "Usuario actual: " ++ current_message ++ nl ++ nl
  ++ u8 "Responde al usuario actual teniendo en cuenta toda la información anterior:".

Definition finish_context (context_parts : list str) (current_message : str)
  : str :=
  match join nl context_parts with
  | [] => current_message
  | context => context ++ instruction_suffix current_message
  end.

(** [get_context(current_message, context_limit)]. The recent exchanges
    are read with the default [session_id] of
    [get_recent_conversations]. *)
Definition get_context (self : t) (current_message : str)
    (context_limit : Z) : M str :=
  recent <- MemoryDatabase.get_recent_conversations context_limit
              MemoryDatabase.default_session ;;
  profile <- MemoryDatabase.get_user_profile ;;
  let context_parts := profile_part profile ++ recent_part recent in
  if (10 <? length current_message)%nat then
    relevant <- MemoryDatabase.search_conversations current_message 2 ;;
    ret (finish_context (context_parts ++ relevant_part relevant)
           current_message)
  else
    ret (finish_context context_parts current_message).

(** [MemoryManager()]: the database is opened and the session token is
    taken from the clock. *)
Definition __init__ : M t :=
  now <- datetime_now ;;
  ret {| current_session := strftime_session now |}.

(** [store_conversation(user_message, assistant_response, importance)]. *)
Definition store_conversation (self : t) (user_message : pyval)
    (assistant_response : str) (importance : Q) : M str :=
  _extract_profile_info user_message ;;
  conv_id <- MemoryDatabase.store_conversation (text_param user_message)
               assistant_response (current_session self) importance ;;
  ret (u8 "Stored conversation #" ++ decimal conv_id ++ u8 " successfully").

(** [search_memory(query, limit)]. *)
Definition search_memory (self : t) (q : str) (limit : Z)
  : M str :=
  results <- MemoryDatabase.search_conversations q limit ;;
  match results with
  | [] => ret (u8 "No conversations found")
  | _ =>
    ret (join nl
           (flat_map
              (fun conv =>
                 [ u8 "[" ++ d_timestamp conv ++ u8 "] Usuario: " ++ user conv;
                   u8 "Asistente: " ++ assistant conv;
                   u8 "---" ])
              results))
  end.

(** [update_profile(key, value)]. *)
Definition update_profile (self : t) (k v : str) : M str :=
  MemoryDatabase.update_user_profile k v ;;
  ret (u8 "Updated profile: " ++ k ++ u8 " = " ++ v).

(** [get_profile()]. *)
Definition get_profile (self : t) : M str :=
  profile <- MemoryDatabase.get_user_profile ;;
  match profile with
  | [] => ret (u8 "No profile information stored")
  | _ => ret (json_dumps profile)
  end.

(** [clear_memory()]. *)
Definition clear_memory (self : t) : M str :=
  MemoryDatabase.clear_memory ;;
  ret (u8 "Memory cleared successfully").

End Methods.
End MemoryManager.

(* ===================================================================== *)
(** ** class MemoryServer (memory_server.py) *)
(* ===================================================================== *)

Module MemoryServer.
Section Methods.
Context {U : Unicode}.

Record t : Type := {
  current_session : str
}.

(** The arguments of the tools, as the [args] dict holds them. A key
    that the schema does not require may be absent. The user message and
    the confirmation are kept as raw values, since the code calls a
    method on the first and tests the second for truth; the others are
    only bound as SQL parameters and are taken at their schema types. *)
Record store_args : Type := {
  arg_user_message : pyval;
  arg_assistant_response : str;
  arg_importance : option Q
}.

Record context_args : Type := {
  arg_current_message : str;
  arg_context_limit : option Z
}.

Record search_args : Type := {
  arg_query : str;
  arg_limit : option Z
}.

Record profile_args : Type := {
  arg_key : str;
  arg_value : str
}.

Record clear_args : Type := {
  arg_confirm : option pyval
}.

(** [args.get(k, default)]. *)
Definition get_default (A : Type) (o : option A) (default : A) : A :=
  match o with
  | Some a => a
  | None => default
  end.

(** [_extract_profile_info]: the body is that of the facade. *)
Definition _extract_profile_info (user_message : pyval) : M unit :=
  msg_lower <- lower user_message ;;
  MemoryManager.for_info_types MemoryManager.patterns msg_lower.

(** [_store_conversation(args)]. *)
Definition _store_conversation (self : t) (args : store_args) : M str :=
  let user_msg := arg_user_message args in
  let assistant_msg := arg_assistant_response args in
  let importance := get_default (arg_importance args) 1%Q in
  _extract_profile_info user_msg ;;
  conv_id <- MemoryDatabase.store_conversation (text_param user_msg)
               assistant_msg (current_session self) importance ;;
  ret (u8 "Stored conversation #" ++ decimal conv_id ++ u8 " successfully").

(** [_get_context(args)]. *)
Definition _get_context (self : t) (args : context_args) : M str :=
  let current_msg := arg_current_message args in
  let context_limit := get_default (arg_context_limit args) 5%Z in
  recent <- MemoryDatabase.get_recent_conversations context_limit
              MemoryDatabase.default_session ;;
  profile <- MemoryDatabase.get_user_profile ;;
  let context_parts :=
    MemoryManager.profile_part profile ++ MemoryManager.recent_part recent in
  if (10 <? length current_msg)%nat then
    relevant <- MemoryDatabase.search_conversations current_msg 2 ;;
    ret (MemoryManager.finish_context
           (context_parts ++ MemoryManager.relevant_part relevant) current_msg)
  else
    ret (MemoryManager.finish_context context_parts current_msg).

(** [_search_memory(args)]. *)
Definition _search_memory (self : t) (args : search_args) : M str :=
  let q := arg_query args in
  let limit := get_default (arg_limit args) 5%Z in
  results <- MemoryDatabase.search_conversations q limit ;;
  match results with
  | [] => ret (u8 "No conversations found")
  | _ =>
    ret (join nl
           (flat_map
              (fun conv =>
                 [ u8 "[" ++ d_timestamp conv ++ u8 "] Usuario: " ++ user conv;
                   u8 "Asistente: " ++ assistant conv;
                   u8 "---" ])
              results))
  end.

(** [_update_profile(args)]. *)
Definition _update_profile (self : t) (args : profile_args) : M str :=
  MemoryDatabase.update_user_profile (arg_key args) (arg_value args) ;;
  ret (u8 "Updated profile: " ++ arg_key args ++ u8 " = " ++ arg_value args).

(** [_get_profile(args)]. *)
Definition _get_profile (self : t) : M str :=
  profile <- MemoryDatabase.get_user_profile ;;
  match profile with
  | [] => ret (u8 "No profile information stored")
  | _ => ret (json_dumps profile)
  end.

(** [_clear_memory(args)]: the two DELETE statements run only past the
    confirmation test. *)
Definition _clear_memory (self : t) (args : clear_args) : M str :=
  let confirm := get_default (arg_confirm args) (PBool false) in
  if negb (truthy confirm) then
    ret (u8 "Memory clear cancelled - confirmation required")
  else
    execute (fun db =>
      (tt, MemoryDatabase.delete_memory_summaries
             (MemoryDatabase.delete_conversations db))) ;;
    ret (u8 "Memory cleared successfully").

(** The names that the chain of [call_tool] tests [request.name]
    against, which are those of the tools that [list_tools] declares. *)
Definition tool_names : list str :=
  [ u8 "store_conversation"; u8 "get_context"; u8 "search_memory";
    u8 "update_profile"; u8 "get_profile"; u8 "clear_memory" ].

(** The request as [call_tool] reads it: an object with the attributes
    [name] and [arguments], given by the tool that [name] selects;
    [call_other] carries a name that is none of [tool_names].
    [call_without_name] is an object of the class [type_name] that has no
    attribute [name]. *)
Inductive request : Type :=
| call_store_conversation (args : store_args)
| call_get_context (args : context_args)
| call_search_memory (args : search_args)
| call_update_profile (args : profile_args)
| call_get_profile
| call_clear_memory (args : clear_args)
| call_other (name : str)
| call_without_name (type_name : str).

(** [request.name]. *)
Definition request_name (req : request) : M str :=
  match req with
  | call_store_conversation _ => ret (u8 "store_conversation")
  | call_get_context _ => ret (u8 "get_context")
  | call_search_memory _ => ret (u8 "search_memory")
  | call_update_profile _ => ret (u8 "update_profile")
  | call_get_profile => ret (u8 "get_profile")
  | call_clear_memory _ => ret (u8 "clear_memory")
  | call_other name => ret name
  | call_without_name type_name =>
    raise (AttributeError type_name (u8 "name"))
  end.

(** [call_tool(request)]: the text of the single [TextContent] of the
    result. The exception of a tool becomes an [Error:] text, past the
    [logger.error] line of the handler, which reads [request.name] once
    more. *)
Definition call_tool (self : t) (req : request) : M str :=
  try_except
    (name <- request_name req ;;
     match req with
     | call_store_conversation args => _store_conversation self args
     | call_get_context args => _get_context self args
     | call_search_memory args => _search_memory self args
     | call_update_profile args => _update_profile self args
     | call_get_profile => _get_profile self
     | call_clear_memory args => _clear_memory self args
     | call_other _ | call_without_name _ =>
       ret (u8 "Unknown tool: " ++ name)
     end)
    (fun e =>
       name <- request_name req ;;
       ret (u8 "Error: " ++ exn_message e)).

(** [MemoryServer()]. *)
Definition __init__ : M t :=
  now <- datetime_now ;;
  ret {| current_session := strftime_session now |}.

End Methods.
End MemoryServer.


(* ===================================================================== *)
(** ** Vocabulary of the properties *)
(* ===================================================================== *)






(** Timestamp descending. *)
Definition newer_or_equal (a b : conversation) : Prop :=
  str_compare (timestamp a) (timestamp b) <> Lt.

(** [l] is [m] with some elements left out, the order kept. *)
Inductive subsequence (A : Type) : list A -> list A -> Prop :=
| subsequence_nil : subsequence [] []
| subsequence_skip x l m : subsequence l m -> subsequence l (x :: m)
| subsequence_keep x l m : subsequence l m -> subsequence (x :: l) (x :: m).

(** The database with the conversation and summary relations emptied. *)
Definition cleared (db : database) : database :=
  {| conversations := [];
     conversations_seq := conversations_seq db;
     memory_summaries := [];
     user_profile := user_profile db |}.

Definition with_db (db : database) (w : world) : world :=
  {| w_db := db; w_clock := w_clock w; w_ticks := w_ticks w |}.

(** The entries that the profile holds for a key. *)
Definition entries_for (k : str) (db : database) : list profile_fact :=
  filter (fun f => str_eqb (key f) k) (user_profile db).

(** [p'] comes from the profile relation [p] by INSERT OR REPLACE
    statements. *)
Inductive upserted : list profile_fact -> list profile_fact -> Prop :=
| upserted_same p : upserted p p
| upserted_replace p f p' :
    upserted
      (filter (fun g => negb (str_eqb (key g) (key f))) p ++ [f]) p' ->
    upserted p p'.

(** A computation that touches the profile relation by upserts only. *)
Definition upserts_only (A : Type) (m : M A) : Prop :=
  forall w,
    upserted (user_profile (w_db w)) (user_profile (w_db (snd (m w)))).

Section Vocabulary.
Context {U : Unicode}.

(** Among the patterns of a list, the first one that matches [s] does so
    with group [v]. *)
Definition first_match_is (pattern_list : list pattern) (s v : str) : Prop :=
  exists before p after,
    pattern_list = before ++ p :: after
    /\ (forall p', In p' before -> re_search p' s = None)
    /\ re_search p s = Some v.

(** The group of the first pattern of the list that matches [s]. *)
Fixpoint first_match (pattern_list : list pattern) (s : str) : option str :=
  match pattern_list with
  | [] => None
  | p :: rest =>
    match re_search p s with
    | Some v => Some v
    | None => first_match rest s
    end
  end.

(** The facts that the items of a pattern table yield on [s]: for each
    item in turn, the group of its first matching pattern, if any. *)
Definition extracted (items : list (str * list pattern)) (s : str)
  : list (str * str) :=
  flat_map
    (fun item =>
       match first_match (snd item) s with
       | Some v => [(fst item, v)]
       | None => []
       end)
    items.

(** A sequence of upserts, one after the other. *)
Fixpoint upsert_all (facts : list (str * str)) : M unit :=
  match facts with
  | [] => ret tt
  | (k, v) :: rest =>
    MemoryDatabase.update_user_profile k v ;; upsert_all rest
  end.

(** One call of an operation of the in-process facade or of the tool
    surface. *)
Inductive facade_step : world -> world -> Prop :=
| step_manager_init w :
    facade_step w (snd (MemoryManager.__init__ w))
| step_store_conversation self user_message assistant_response imp w :
    facade_step w
      (snd (MemoryManager.store_conversation self user_message
              assistant_response imp w))
| step_get_context self m limit w :
    facade_step w (snd (MemoryManager.get_context self m limit w))
| step_search_memory self q limit w :
    facade_step w (snd (MemoryManager.search_memory self q limit w))
| step_update_profile self k v w :
    facade_step w (snd (MemoryManager.update_profile self k v w))
| step_get_profile self w :
    facade_step w (snd (MemoryManager.get_profile self w))
| step_clear_memory self w :
    facade_step w (snd (MemoryManager.clear_memory self w))
| step_server_init w :
    facade_step w (snd (MemoryServer.__init__ w))
| step_call_tool self req w :
    facade_step w (snd (MemoryServer.call_tool self req w)).

(** The worlds that calls of the operations lead to from a fresh
    database file. *)
Inductive reachable : world -> Prop :=
| reachable_fresh clock :
    reachable {| w_db := empty_database; w_clock := clock; w_ticks := 0 |}
| reachable_step w w' :
    reachable w -> facade_step w w' -> reachable w'.
End Vocabulary.

(* ===================================================================== *)
(** ** Concrete scenarios *)
(* ===================================================================== *)

(** A clock that advances by one second per reading, from
    2026-11-03 10:15:00. *)
Definition sample_clock (n : nat) : datetime :=
  {| year := 2026; month := 11; day := 3;
     hour := 10; minute := 15; second := N.of_nat n; microsecond := 0 |}.

Definition fresh_world : world :=
  {| w_db := empty_database; w_clock := sample_clock; w_ticks := 0 |}.

(** A store holding the single exchange ("hola", "adios"). *)
Definition greeting_world : world :=
  snd (MemoryDatabase.store_conversation (u8 "hola") (u8 "adios")
         (u8 "20261103_101500") 1 fresh_world).


(** The two exchanges that the repository's database test stores. *)
Definition test_world : world :=
  snd ((MemoryDatabase.store_conversation (u8 "Hola, mi nombre es Juan")
          (u8 "¡Hola Juan! Encantado de conocerte.") (u8 "test_session") 1.5 ;;
        MemoryDatabase.store_conversation
          (u8 "Tengo 25 años y estudio ingeniería")
          (u8 "Qué interesante, Juan. ¿Qué tipo de ingeniería estudias?")
          (u8 "test_session") 1.2) fresh_world).

(** The facade is created on a fresh database, stores one exchange, and is
    then asked for the context of the message "hi". *)
Definition store_then_context : M str :=
  self <- MemoryManager.__init__ ;;
  MemoryManager.store_conversation (U := latin1) self
    (PStr (u8 "hola")) (u8 "que tal") 1 ;;
  MemoryManager.get_context self (u8 "hi") 5.

(** The same with a stored exchange that the message occurs in, and a
    message long enough for the relevance search. *)
Definition store_then_long_context : M str :=
  self <- MemoryManager.__init__ ;;
  MemoryManager.store_conversation (U := latin1) self
    (PStr (u8 "me gusta el ajedrez")) (u8 "que bien") 1 ;;
  MemoryManager.get_context self (u8 "me gusta el ajedrez") 5.

(** The end-to-end scenario: two exchanges stored through the facade, then
    the profile read. *)
Definition juan_scenario (self : MemoryManager.t) : M (list (str * str) * str) :=
  MemoryManager.store_conversation (U := latin1) self
    (PStr (u8 "Mi nombre es Juan")) (u8 "Hola Juan") 1 ;;
  MemoryManager.store_conversation (U := latin1) self
    (PStr (u8 "Tengo 25 años")) (u8 "Qué interesante") 1 ;;
  profile <- MemoryDatabase.get_user_profile ;;
  text <- MemoryManager.get_profile self ;;
  ret (profile, text).

(** A facade and a tool server started at 2026-11-03 10:15:00. *)
Definition sample_manager : MemoryManager.t :=
  {| MemoryManager.current_session := u8 "20261103_101500" |}.

Definition sample_server : MemoryServer.t :=
  {| MemoryServer.current_session := u8 "20261103_101500" |}.

(** A store request whose user message is JSON [null]. *)
Definition null_message_args : MemoryServer.store_args :=
  {| MemoryServer.arg_user_message := PNone;
     MemoryServer.arg_assistant_response := u8 "Hola";
     MemoryServer.arg_importance := Some 1 |}.

(* ===================================================================== *)
(** ** Further vocabulary: lookups, frames, sessions *)
(* ===================================================================== *)

(** [d.get(k)] on a dict of strings. *)
Fixpoint dict_get (k : str) (d : list (str * str)) : option str :=
  match d with
  | [] => None
  | (k', v) :: rest => if str_eqb k' k then Some v else dict_get k rest
  end.

(** [q] stands in [s] character for character. *)
Definition infix_of (q s : str) : Prop :=
  exists pre post, s = pre ++ q ++ post.

(** A computation whose effect on the database stays within the
    relation [R]. *)
Definition keeps (R : database -> database -> Prop) (A : Type) (m : M A)
  : Prop :=
  forall w, R (w_db w) (w_db (snd (m w))).

(** The ids of the table increase along the rows and none exceeds the
    AUTOINCREMENT counter. *)
Definition ids_in_order (db : database) : Prop :=
  StronglySorted N.lt (map id (conversations db))
  /\ Forall (fun c => (id c <= conversations_seq db)%N) (conversations db).

(** A session token as [__init__] makes it. *)
Definition init_session (s : str) : Prop :=
  exists dt, s = strftime_session dt.

(** No row is tagged with the default of the [session_id] parameter. *)
Definition no_default_session (db : database) : Prop :=
  Forall (fun c => str_eqb (session_id c) MemoryDatabase.default_session = false)
    (conversations db).

Section Sessions.
Context {U : Unicode}.

(** One call of an operation by a facade or a tool server whose session
    token satisfies [ok]. *)
Inductive facade_step_with (ok : str -> Prop) : world -> world -> Prop :=
| with_manager_init w :
    facade_step_with ok w (snd (MemoryManager.__init__ w))
| with_store_conversation self message reply imp w :
    ok (MemoryManager.current_session self) ->
    facade_step_with ok w
      (snd (MemoryManager.store_conversation self message reply imp w))
| with_get_context self m limit w :
    facade_step_with ok w (snd (MemoryManager.get_context self m limit w))
| with_search_memory self q limit w :
    facade_step_with ok w (snd (MemoryManager.search_memory self q limit w))
| with_update_profile self k v w :
    facade_step_with ok w (snd (MemoryManager.update_profile self k v w))
| with_get_profile self w :
    facade_step_with ok w (snd (MemoryManager.get_profile self w))
| with_clear_memory self w :
    facade_step_with ok w (snd (MemoryManager.clear_memory self w))
| with_server_init w :
    facade_step_with ok w (snd (MemoryServer.__init__ w))
| with_call_tool self req w :
    ok (MemoryServer.current_session self) ->
    facade_step_with ok w (snd (MemoryServer.call_tool self req w)).

(** The worlds that facades and servers set up by [__init__] lead to from
    a fresh database file. *)
Inductive served : world -> Prop :=
| served_fresh clock :
    served {| w_db := empty_database; w_clock := clock; w_ticks := 0 |}
| served_step w w' :
    served w -> facade_step_with init_session w w' -> served w'.

(** The four fact types of the extractor. *)
Definition info_types : list str :=
  [u8 "name"; u8 "age"; u8 "profession"; u8 "location"].

(** The pattern [r"soy (\w+)"], listed under the name and under the
    profession. *)
Definition soy_pattern : pattern := pat "soy " word_class no_suffix.
End Sessions.

(* ===================================================================== *)
(** ** The language model and the chat loops that call the memory *)
(* ===================================================================== *)

(** What [gemini_model.generate_content(prompt)] comes back with: a
    response with its [text], or an exception with its message. *)
Inductive llm_outcome : Type :=
| llm_text (text : str)
| llm_raises (message : str).

(** The fixed answers of [send_to_gemini]. *)
Definition no_response_text : str := u8 "⚠️ No se recibió respuesta".

Definition error_text (message : str) : str := u8 "❌ Error: " ++ message.

(** [l[-n:]]: the last [n] elements, and the whole list for [n = 0]. *)
Definition py_last (A : Type) (n : nat) (l : list A) : list A :=
  match n with
  | O => l
  | S _ => skipn (length l - n) l
  end.

(** class FullVoiceChatBot (full_voice_human_llm.py): the conversation
    memory kept in a list and mirrored in a JSON file. *)
Module FullVoiceChatBot.

(** An entry of [conversation_history]. *)
Record exchange : Type := {
  e_timestamp : str;
  e_user : str;
  e_assistant : str
}.

(** The object that [save_memory] dumps. A file written by other means may
    lack the history key. *)
Record memory_data : Type := {
  md_last_updated : str;
  md_total_exchanges : nat;
  md_max_history_length : nat;
  md_conversation_history : option (list exchange)
}.

(** The memory file, by the JSON value it holds and by the way it takes
    a write. The first three can be written. [file_write_protected] cannot
    be opened for writing and keeps what it holds, [None] for nothing that
    can be read; [file_device_full] is emptied by [open(..., 'w')] and
    takes no complete text after that. *)
Inductive file_content : Type :=
| file_missing
| file_unreadable
| file_json (data : memory_data)
| file_write_protected (data : option memory_data)
| file_device_full (data : option memory_data).

Definition writable (file : file_content) : bool :=
  match file with
  | file_write_protected _ | file_device_full _ => false
  | _ => true
  end.

(** What [json.load] gives on the file, [None] where [exists()] is false
    or the read raises. *)
Definition read_json (file : file_content) : option memory_data :=
  match file with
  | file_missing | file_unreadable => None
  | file_json data => Some data
  | file_write_protected data | file_device_full data => data
  end.

(** The texts of an exchange can be written with [encoding='utf-8']. *)
Definition exchange_encodable (e : exchange) : bool :=
  encodable (e_timestamp e) && encodable (e_user e)
  && encodable (e_assistant e).

(** [with open(self.memory_file, 'w', encoding='utf-8') as f:
    json.dump(memory_data, f, ensure_ascii=False, indent=2)]: whether it
    raised, and the file afterwards. A text that cannot be encoded stops
    the dump part way, which leaves a text that cannot be read back. *)
Definition write_json (data : memory_data) (file : file_content)
  : bool * file_content :=
  match file with
  | file_write_protected held => (true, file_write_protected held)
  | file_device_full _ => (true, file_device_full None)
  | _ =>
    if encodable (md_last_updated data)
       && forallb exchange_encodable
            (match md_conversation_history data with
             | Some h => h
             | None => []
             end)
    then (false, file_json data)
    else (true, file_unreadable)
  end.

(** The memory-related attributes of the bot, with the clock of the
    environment. *)
Record t : Type := {
  conversation_history : list exchange;
  max_history_length : nat;
  memory_file : file_content;
  clock : nat -> datetime;
  ticks : nat
}.

Definition set_history (h : list exchange) (self : t) : t :=
  {| conversation_history := h;
     max_history_length := max_history_length self;
     memory_file := memory_file self;
     clock := clock self;
     ticks := ticks self |}.

(** [save_memory()]: the file is rewritten with the history and its
    summary fields. The handler of the [try] only prints: an exception of
    the write is dropped, and the file stays as the failed write left
    it. *)
Definition save_memory (self : t) : t :=
  let memory_data :=
    {| md_last_updated := isoformat (clock self (ticks self));
       md_total_exchanges := length (conversation_history self);
       md_max_history_length := max_history_length self;
       md_conversation_history := Some (conversation_history self) |} in
  {| conversation_history := conversation_history self;
     max_history_length := max_history_length self;
     memory_file := snd (write_json memory_data (memory_file self));
     clock := clock self;
     ticks := S (ticks self) |}.

(** The trimming [if len(h) > max: h = h[-max:]]. *)
Definition trim (max : nat) (h : list exchange) : list exchange :=
  if (max <? length h)%nat then py_last max h else h.

(** [add_to_conversation_history(user_message, assistant_response)]. *)
Definition add_to_conversation_history (user_message assistant_response : str)
    (self : t) : t :=
  let entry :=
    {| e_timestamp := isoformat (clock self (ticks self));
       e_user := user_message;
       e_assistant := assistant_response |} in
  let appended := conversation_history self ++ [entry] in
  save_memory
    {| conversation_history := trim (max_history_length self) appended;
       max_history_length := max_history_length self;
       memory_file := memory_file self;
       clock := clock self;
       ticks := S (ticks self) |}.

(** The lines of one exchange in the prompt. *)
Definition prompt_lines (e : exchange) : str :=
  u8 "Usuario: " ++ e_user e ++ nl
  ++ u8 "Asistente: " ++ e_assistant e ++ nl ++ nl.

(** [build_context_prompt(current_message)]. *)
Definition build_context_prompt (current_message : str) (self : t) : str :=
  match conversation_history self with
  | [] => current_message
  | _ =>
    u8 "Contexto de la conversación anterior:" ++ nl
    ++ flat_map prompt_lines (py_last 5 (conversation_history self))
    ++ u8 "Usuario actual: " ++ current_message ++ nl ++ nl
    ++ u8 "Responde al usuario actual teniendo en cuenta el contexto de la conversación:"
  end.

(** [load_memory()]: a missing or unreadable file gives the empty history;
    a history longer than the bound is trimmed and saved back. *)
Definition load_memory (self : t) : t :=
  match read_json (memory_file self) with
  | None => set_history [] self
  | Some data =>
    let h :=
      match md_conversation_history data with
      | Some h => h
      | None => []
      end in
    if (max_history_length self <? length h)%nat then
      save_memory (set_history (py_last (max_history_length self) h) self)
    else set_history h self
  end.

(** [clear_memory()]. *)
Definition clear_memory (self : t) : t :=
  save_memory (set_history [] self).

(** The memory part of [__init__]: an empty history, the bound 10, then
    [load_memory()]. *)
Definition __init__ (file : file_content) (clock : nat -> datetime) : t :=
  load_memory
    {| conversation_history := [];
       max_history_length := 10;
       memory_file := file;
       clock := clock;
       ticks := 0 |}.

(** [send_to_gemini(message)]: the reply, and the bot after the call.
    [strip] is [str.strip]. *)
Definition send_to_gemini (strip : str -> str)
    (generate_content : str -> llm_outcome) (message : str) (self : t)
  : str * t :=
  let contextual_prompt := build_context_prompt message self in
  match generate_content contextual_prompt with
  | llm_raises e => (error_text e, self)
  | llm_text [] => (no_response_text, self)
  | llm_text text =>
    let assistant_response := strip text in
    (assistant_response,
     add_to_conversation_history message assistant_response self)
  end.

End FullVoiceChatBot.

(** class FullVoiceChatBotAdvanced (full_voice_human_llm_advanced.py). *)
Module FullVoiceChatBotAdvanced.
Section Methods.
Context {U : Unicode}.

(** [send_to_gemini(message)] on the bot whose [self.memory] is [memory].
    An exception of the memory calls, like one of the model, ends in the
    error text. *)
Definition send_to_gemini (strip : str -> str)
    (generate_content : str -> llm_outcome) (memory : MemoryManager.t)
    (message : str) : M str :=
  try_except
    (contextual_prompt <- MemoryManager.get_context memory message 5 ;;
     match generate_content contextual_prompt with
     | llm_raises e => ret (error_text e)
     | llm_text [] => ret no_response_text
     | llm_text text =>
       let assistant_response := strip text in
       MemoryManager.store_conversation memory (PStr message)
         assistant_response 1 ;;
       ret assistant_response
     end)
    (fun e => ret (error_text (exn_message e))).

End Methods.
End FullVoiceChatBotAdvanced.
(* ===================================================================== *)
(** ** Basic facts about text and ordering *)
(* ===================================================================== *)

Lemma str_eqb_eq : forall a b : str, str_eqb a b = true <-> a = b.
Proof.
  induction a as [|x a IH]; destruct b as [|y b]; simpl; split; intro H;
    try reflexivity; try discriminate.
  - apply andb_true_iff in H. destruct H as [Hx Hr].
    apply N.eqb_eq in Hx. apply IH in Hr. congruence.
  - injection H as -> ->. rewrite N.eqb_refl. simpl. now apply IH.
Qed.

Lemma str_eqb_refl : forall a : str, str_eqb a a = true.
Proof. intro a. now apply str_eqb_eq. Qed.

Lemma str_eqb_neq : forall a b : str, str_eqb a b = false <-> a <> b.
Proof.
  intros a b. split.
  - intros H E. apply str_eqb_eq in E. congruence.
  - intro H. destruct (str_eqb a b) eqn:E; [|reflexivity].
    apply str_eqb_eq in E. contradiction.
Qed.

Lemma str_compare_refl : forall a : str, str_compare a a = Eq.
Proof.
  induction a as [|x a IH]; simpl; [reflexivity|].
  now rewrite N.compare_refl.
Qed.

Lemma str_compare_antisym :
  forall a b : str, str_compare b a = CompOpp (str_compare a b).
Proof.
  induction a as [|x a IH]; destruct b as [|y b]; simpl; try reflexivity.
  rewrite (N.compare_antisym x y).
  destruct (x ?= y)%N; simpl; auto.
Qed.

Lemma str_compare_eq : forall a b : str, str_compare a b = Eq -> a = b.
Proof.
  induction a as [|x a IH]; destruct b as [|y b]; simpl; intro H;
    try reflexivity; try discriminate.
  destruct (x ?= y)%N eqn:E; try discriminate.
  apply N.compare_eq_iff in E. apply IH in H. congruence.
Qed.

Lemma str_compare_lt_trans :
  forall a b c : str,
    str_compare a b = Lt -> str_compare b c = Lt -> str_compare a c = Lt.
Proof.
  induction a as [|x a IH]; destruct b as [|y b]; destruct c as [|z c];
    simpl; intros H1 H2; try reflexivity; try discriminate.
  destruct (x ?= y)%N eqn:Exy; try discriminate;
    destruct (y ?= z)%N eqn:Eyz; try discriminate.
  - apply N.compare_eq_iff in Exy. apply N.compare_eq_iff in Eyz. subst.
    rewrite N.compare_refl. eauto.
  - apply N.compare_eq_iff in Exy. subst. now rewrite Eyz.
  - apply N.compare_eq_iff in Eyz. subst. now rewrite Exy.
  - rewrite N.compare_lt_iff in Exy, Eyz.
    assert (E : (x ?= z)%N = Lt) by (apply N.compare_lt_iff; lia).
    now rewrite E.
Qed.

(** [a >= b] on text is transitive. *)
Lemma str_compare_ge_trans :
  forall a b c : str,
    str_compare a b <> Lt -> str_compare b c <> Lt -> str_compare a c <> Lt.
Proof.
  intros a b c H1 H2 H3.
  destruct (str_compare a b) eqn:Eab; try congruence.
  - apply str_compare_eq in Eab. subst. contradiction.
  - destruct (str_compare b c) eqn:Ebc; try congruence.
    + apply str_compare_eq in Ebc. subst. congruence.
    + assert (Hca : str_compare c a = Gt).
      { rewrite (str_compare_antisym a c), H3. reflexivity. }
      assert (Hba : str_compare b a = Lt).
      { rewrite (str_compare_antisym a b), Eab. reflexivity. }
      assert (Hcb : str_compare c b = Lt).
      { rewrite (str_compare_antisym b c), Ebc. reflexivity. }
      pose proof (str_compare_lt_trans _ _ _ Hcb Hba). congruence.
Qed.

Section OrderByFacts.
Variable A : Type.
Variable precedes : A -> A -> bool.

Lemma insert_row_perm :
  forall (x : A) (l : list A), Permutation (x :: l) (insert_row precedes x l).
Proof.
  intros x l. induction l as [|y l IH]; simpl.
  - apply Permutation_refl.
  - destruct (precedes x y).
    + apply Permutation_refl.
    + eapply perm_trans; [apply perm_swap|]. now apply perm_skip.
Qed.

Lemma order_by_perm :
  forall l : list A, Permutation l (order_by precedes l).
Proof.
  induction l as [|x l IH]; simpl.
  - apply perm_nil.
  - eapply perm_trans; [apply perm_skip, IH|]. apply insert_row_perm.
Qed.

Lemma order_by_length :
  forall l : list A, length (order_by precedes l) = length l.
Proof.
  intro l. symmetry. apply Permutation_length, order_by_perm.
Qed.

Lemma order_by_nil_inv :
  forall l : list A, order_by precedes l = [] -> l = [].
Proof.
  intros l H. apply (f_equal (@length A)) in H.
  rewrite order_by_length in H. destruct l; [reflexivity|discriminate].
Qed.

Hypothesis precedes_total :
  forall a b, precedes a b = false -> precedes b a = true.
Hypothesis precedes_trans :
  forall a b c, precedes a b = true -> precedes b c = true ->
                precedes a c = true.

Lemma insert_row_sorted :
  forall (x : A) (l : list A),
    StronglySorted (fun a b => precedes a b = true) l ->
    StronglySorted (fun a b => precedes a b = true) (insert_row precedes x l).
Proof.
  intros x l H. induction H as [|y l Hs IH Hall]; simpl.
  - constructor; constructor.
  - destruct (precedes x y) eqn:E.
    + constructor.
      * now constructor.
      * constructor; [exact E|].
        rewrite Forall_forall in *. intros z Hz.
        eapply precedes_trans; [exact E|]. now apply Hall.
    + constructor; [exact IH|].
      rewrite Forall_forall in *. intros z Hz.
      apply (Permutation_in _ (Permutation_sym (insert_row_perm x l))) in Hz.
      destruct Hz as [<-|Hz]; [now apply precedes_total|now apply Hall].
Qed.

Lemma order_by_sorted :
  forall l : list A,
    StronglySorted (fun a b => precedes a b = true) (order_by precedes l).
Proof.
  induction l as [|x l IH]; simpl.
  - constructor.
  - now apply insert_row_sorted.
Qed.
End OrderByFacts.

Lemma sql_limit_length :
  forall (A : Type) (n : Z) (l : list A),
    (0 <= n)%Z -> (Z.of_nat (length (sql_limit n l)) <= n)%Z.
Proof.
  intros A n l Hn. unfold sql_limit.
  destruct (n <? 0)%Z eqn:E; [apply Z.ltb_lt in E; lia|].
  rewrite length_firstn. lia.
Qed.

(* ===================================================================== *)
(** ** Reads and the two DELETE statements *)
(* ===================================================================== *)

Lemma sql_limit_nil : forall (A : Type) (n : Z), sql_limit n (@nil A) = [].
Proof.
  intros A n. unfold sql_limit. destruct (n <? 0)%Z; [reflexivity|].
  apply firstn_nil.
Qed.

Lemma select_recent_no_rows :
  forall limit session db,
    conversations db = [] -> MemoryDatabase.select_recent limit session db = [].
Proof.
  intros limit session db H. unfold MemoryDatabase.select_recent.
  rewrite H. simpl. now rewrite sql_limit_nil.
Qed.

Lemma select_search_no_rows :
  forall q limit db,
    conversations db = [] -> MemoryDatabase.select_search q limit db = [].
Proof.
  intros q limit db H. unfold MemoryDatabase.select_search.
  rewrite H. simpl. now rewrite sql_limit_nil.
Qed.

Lemma clear_memory_run :
  forall w, MemoryDatabase.clear_memory w = (inr tt, with_db (cleared (w_db w)) w).
Proof. intro w. reflexivity. Qed.

(** The three query operations of the facade return the world they were
    given. *)
Lemma get_context_world :
  forall self m limit w, snd (MemoryManager.get_context self m limit w) = w.
Proof.
  intros self m limit w. unfold MemoryManager.get_context, bind. simpl.
  destruct (10 <? length m)%nat; reflexivity.
Qed.

Lemma search_memory_world :
  forall self q limit w, snd (MemoryManager.search_memory self q limit w) = w.
Proof.
  intros self q limit w. unfold MemoryManager.search_memory, bind. simpl.
  destruct (MemoryDatabase.select_search q limit (w_db w)); reflexivity.
Qed.

Lemma get_profile_world :
  forall self w, snd (MemoryManager.get_profile self w) = w.
Proof.
  intros self w. unfold MemoryManager.get_profile, bind. simpl.
  destruct (map _ (user_profile (w_db w))); reflexivity.
Qed.

(** What [get_profile] answers is a function of the profile relation. *)
Lemma get_profile_answer :
  forall self w w',
    user_profile (w_db w') = user_profile (w_db w) ->
    fst (MemoryManager.get_profile self w')
    = fst (MemoryManager.get_profile self w).
Proof.
  intros self w w' H. unfold MemoryManager.get_profile, bind. simpl.
  rewrite H. destruct (map _ (user_profile (w_db w))); reflexivity.
Qed.

(** C4. After [clear_memory()] the conversation and summary relations are
    empty, so [get_recent_conversations] and [search_conversations] return
    the empty sequence whatever their arguments, while the profile relation
    is the one from before the call and [get_profile()] answers as it did. *)
Theorem clear_memory_keeps_profile :
  forall (self : MemoryManager.t) (w : world),
    let w' := snd (MemoryManager.clear_memory self w) in
    fst (MemoryManager.clear_memory self w)
    = inr (u8 "Memory cleared successfully")
    /\ conversations (w_db w') = []
    /\ memory_summaries (w_db w') = []
    /\ (forall limit session,
          fst (MemoryDatabase.get_recent_conversations limit session w') = inr [])
    /\ (forall q limit,
          fst (MemoryDatabase.search_conversations q limit w') = inr [])
    /\ user_profile (w_db w') = user_profile (w_db w)
    /\ fst (MemoryDatabase.get_user_profile w')
       = fst (MemoryDatabase.get_user_profile w)
    /\ fst (MemoryManager.get_profile self w')
       = fst (MemoryManager.get_profile self w).
Proof.
  intros self w w'.
  assert (Hw : w' = with_db (cleared (w_db w)) w) by reflexivity.
  rewrite Hw. repeat split.
  - intros limit session. simpl.
    now rewrite select_recent_no_rows.
  - intros q limit. simpl. now rewrite select_search_no_rows.
  - now apply get_profile_answer.
Qed.

(** C6. With no conversation row and no profile fact, [get_context(m)] is
    the message [m] itself, for every message and every context limit, and
    the world is left as it was. *)
Theorem get_context_degenerates :
  forall (self : MemoryManager.t) (m : str) (limit : Z) (w : world),
    conversations (w_db w) = [] ->
    user_profile (w_db w) = [] ->
    MemoryManager.get_context self m limit w = (inr m, w).
Proof.
  intros self m limit w Hc Hp.
  unfold MemoryManager.get_context, bind,
    MemoryDatabase.get_recent_conversations, MemoryDatabase.get_user_profile,
    MemoryDatabase.search_conversations, query, ret.
  rewrite (select_recent_no_rows _ _ _ Hc), Hp. simpl.
  destruct (10 <? length m)%nat.
  - now rewrite (select_search_no_rows _ _ _ Hc).
  - reflexivity.
Qed.

Lemma get_context_degenerates_hi :
  MemoryManager.get_context sample_manager (u8 "hi") 5 fresh_world
  = (inr (u8 "hi"), fresh_world).
Proof.
  exact (get_context_degenerates sample_manager (u8 "hi") 5 fresh_world
           eq_refl eq_refl).
Defined.

(** C10. [get_context], [search_memory] and [get_profile] only read: each
    returns the world it was given, so the three relations (and the clock)
    are what they were. *)
Theorem queries_leave_the_store :
  forall (self : MemoryManager.t) (m q : str) (limit : Z) (w : world),
    (snd (MemoryManager.get_context self m limit w) = w
     /\ snd (MemoryManager.search_memory self q limit w) = w
     /\ snd (MemoryManager.get_profile self w) = w)
    /\ (let db := w_db (snd (MemoryManager.get_context self m limit w)) in
        conversations db = conversations (w_db w)
        /\ memory_summaries db = memory_summaries (w_db w)
        /\ user_profile db = user_profile (w_db w))
    /\ (let db := w_db (snd (MemoryManager.search_memory self q limit w)) in
        conversations db = conversations (w_db w)
        /\ memory_summaries db = memory_summaries (w_db w)
        /\ user_profile db = user_profile (w_db w))
    /\ (let db := w_db (snd (MemoryManager.get_profile self w)) in
        conversations db = conversations (w_db w)
        /\ memory_summaries db = memory_summaries (w_db w)
        /\ user_profile db = user_profile (w_db w)).
Proof.
  intros self m q limit w.
  rewrite get_context_world, search_memory_world, get_profile_world.
  repeat split.
Qed.

(** C9. Through the tool surface, [clear_memory] with [confirm] absent or
    false answers with the cancellation and leaves the world as it was;
    with [confirm] true it empties the conversation and summary relations;
    it changes the database only for a confirmation that holds. The
    facade's [clear_memory()] empties the two relations without asking. *)
Theorem clear_memory_confirmation :
  forall (U : Unicode) (server : MemoryServer.t) (manager : MemoryManager.t)
         (w : world),
    (forall args,
        MemoryServer.arg_confirm args = None
        \/ MemoryServer.arg_confirm args = Some (PBool false) ->
        MemoryServer.call_tool server (MemoryServer.call_clear_memory args) w
        = (inr (u8 "Memory clear cancelled - confirmation required"), w))
    /\ (forall args,
        MemoryServer.arg_confirm args = Some (PBool true) ->
        MemoryServer.call_tool server (MemoryServer.call_clear_memory args) w
        = (inr (u8 "Memory cleared successfully"),
           with_db (cleared (w_db w)) w))
    /\ (forall args,
        snd (MemoryServer.call_tool server (MemoryServer.call_clear_memory args) w)
        <> w ->
        exists v, MemoryServer.arg_confirm args = Some v /\ truthy v = true)
    /\ MemoryManager.clear_memory manager w
       = (inr (u8 "Memory cleared successfully"),
          with_db (cleared (w_db w)) w).
Proof.
  intros U server manager w. repeat split.
  - intros [c] [H|H]; simpl in H; subst c; reflexivity.
  - intros [c] H; simpl in H; subst c; reflexivity.
  - intros [[v|]] H.
    + exists v. split; [reflexivity|].
      destruct (truthy v) eqn:E; [reflexivity|].
      exfalso. apply H.
      unfold MemoryServer.call_tool, try_except, MemoryServer._clear_memory,
        MemoryServer.get_default. simpl. rewrite E. reflexivity.
    + exfalso. apply H. reflexivity.
Qed.

Lemma clear_memory_confirmation_example :
  MemoryServer.call_tool (U := latin1) sample_server
    (MemoryServer.call_clear_memory {| MemoryServer.arg_confirm := None |})
    fresh_world
  = (inr (u8 "Memory clear cancelled - confirmation required"), fresh_world).
Proof.
  exact (proj1 (clear_memory_confirmation latin1 sample_server sample_manager
                  fresh_world)
           {| MemoryServer.arg_confirm := None |} (or_introl eq_refl)).
Defined.

(* ===================================================================== *)
(** ** The profile relation under upserts *)
(* ===================================================================== *)

Lemma update_user_profile_run :
  forall k v w,
    MemoryDatabase.update_user_profile k v w
    = (inr tt,
       {| w_db :=
            MemoryDatabase.replace_fact
              {| key := k; value := v;
                 last_updated := isoformat (w_clock w (w_ticks w)) |} (w_db w);
          w_clock := w_clock w;
          w_ticks := S (w_ticks w) |}).
Proof. reflexivity. Qed.

Lemma filter_key_removed :
  forall (k : str) (p : list profile_fact),
    filter (fun f => str_eqb (key f) k)
      (filter (fun g => negb (str_eqb (key g) k)) p) = [].
Proof.
  intros k p. induction p as [|f p IH]; simpl; [reflexivity|].
  destruct (str_eqb (key f) k) eqn:E; simpl; [exact IH|].
  now rewrite E.
Qed.

Lemma entries_for_replace_fact :
  forall f db, entries_for (key f) (MemoryDatabase.replace_fact f db) = [f].
Proof.
  intros f db. unfold entries_for, MemoryDatabase.replace_fact. simpl.
  rewrite filter_app, filter_key_removed. simpl.
  now rewrite str_eqb_refl.
Qed.

Lemma keys_of_filter_NoDup :
  forall (P : profile_fact -> bool) (p : list profile_fact),
    NoDup (map key p) -> NoDup (map key (filter P p)).
Proof.
  intros P p. induction p as [|f p IH]; simpl; intro H; [constructor|].
  inversion H as [|x l Hn Hd]; subst.
  destruct (P f); simpl; [|now apply IH].
  constructor; [|now apply IH].
  intro Hin. apply Hn. apply in_map_iff in Hin.
  destruct Hin as [g [Hk Hg]]. apply filter_In in Hg.
  apply in_map_iff. exists g. tauto.
Qed.

Lemma replace_keeps_keys_NoDup :
  forall (f : profile_fact) (p : list profile_fact),
    NoDup (map key p) ->
    NoDup (map key
             (filter (fun g => negb (str_eqb (key g) (key f))) p ++ [f])).
Proof.
  intros f p H. rewrite map_app. simpl.
  apply NoDup_app.
  - now apply keys_of_filter_NoDup.
  - constructor; [intros []|constructor].
  - intros k Hk [Hf|[]]. subst k.
    apply in_map_iff in Hk. destruct Hk as [g [Hg Hin]].
    apply filter_In in Hin. destruct Hin as [_ Hne].
    rewrite Hg, str_eqb_refl in Hne. discriminate.
Qed.

Lemma upserted_keeps_keys_NoDup :
  forall p p', upserted p p' -> NoDup (map key p) -> NoDup (map key p').
Proof.
  intros p p' H. induction H as [p|p f p' _ IH]; intro Hp; [exact Hp|].
  apply IH. now apply replace_keeps_keys_NoDup.
Qed.

Lemma upserted_trans :
  forall p q r, upserted p q -> upserted q r -> upserted p r.
Proof.
  intros p q r H. revert r.
  induction H as [p|p f q _ IH]; intros r Hr; [exact Hr|].
  eapply upserted_replace. now apply IH.
Qed.

(** The building blocks of the methods touch the profile by upserts only. *)
Lemma upserts_only_ret : forall (A : Type) (a : A), upserts_only (ret a).
Proof. intros A a w. apply upserted_same. Qed.

Lemma upserts_only_raise : forall (A : Type) (e : exn), upserts_only (@raise A e).
Proof. intros A e w. apply upserted_same. Qed.

Lemma upserts_only_bind :
  forall (A B : Type) (m : M A) (k : A -> M B),
    upserts_only m -> (forall a, upserts_only (k a)) -> upserts_only (bind m k).
Proof.
  intros A B m k Hm Hk w. unfold bind.
  specialize (Hm w). destruct (m w) as [[e|a] w1]; simpl in *; [exact Hm|].
  eapply upserted_trans; [exact Hm|]. apply Hk.
Qed.

Lemma upserts_only_try_except :
  forall (A : Type) (m : M A) (h : exn -> M A),
    upserts_only m -> (forall e, upserts_only (h e)) ->
    upserts_only (try_except m h).
Proof.
  intros A m h Hm Hh w. unfold try_except.
  specialize (Hm w). destruct (m w) as [[e|a] w1]; simpl in *; [|exact Hm].
  eapply upserted_trans; [exact Hm|]. apply Hh.
Qed.

Lemma upserts_only_now : upserts_only datetime_now.
Proof. intro w. apply upserted_same. Qed.

Lemma upserts_only_query :
  forall (A : Type) (f : database -> A), upserts_only (query f).
Proof. intros A f w. apply upserted_same. Qed.

Lemma upserts_only_execute :
  forall (A : Type) (f : database -> A * database),
    (forall db, user_profile (snd (f db)) = user_profile db) ->
    upserts_only (execute f).
Proof.
  intros A f H w. unfold execute. specialize (H (w_db w)).
  destruct (f (w_db w)) as [a db']. simpl in *. rewrite H.
  apply upserted_same.
Qed.

Lemma upserts_only_update_user_profile :
  forall k v, upserts_only (MemoryDatabase.update_user_profile k v).
Proof.
  intros k v w. rewrite update_user_profile_run. simpl.
  apply upserted_replace
    with (f := {| key := k; value := v;
                  last_updated := isoformat (w_clock w (w_ticks w)) |}).
  apply upserted_same.
Qed.

Lemma upserts_only_if :
  forall (A : Type) (b : bool) (m1 m2 : M A),
    upserts_only m1 -> upserts_only m2 -> upserts_only (if b then m1 else m2).
Proof. intros A b m1 m2 H1 H2. now destruct b. Qed.

Create HintDb upserts discriminated.
#[local] Hint Resolve upserts_only_ret upserts_only_raise upserts_only_bind
  upserts_only_try_except upserts_only_now upserts_only_query
  upserts_only_update_user_profile upserts_only_if : upserts.

Section ProfileInvariant.
Context {U : Unicode}.

Lemma upserts_only_for_patterns :
  forall info_type pattern_list s,
    upserts_only (MemoryManager.for_patterns info_type pattern_list s).
Proof.
  intros info_type pattern_list s.
  induction pattern_list as [|p rest IH]; simpl; auto with upserts.
  destruct (re_search p s); auto with upserts.
Qed.

Lemma upserts_only_for_info_types :
  forall items s, upserts_only (MemoryManager.for_info_types items s).
Proof.
  intros items s. induction items as [|[info_type pattern_list] rest IH];
    simpl; auto with upserts.
  apply upserts_only_bind; [apply upserts_only_for_patterns|auto].
Qed.

Lemma upserts_only_lower : forall v, upserts_only (lower v).
Proof. intros []; simpl; auto with upserts. Qed.

Lemma upserts_only_extract :
  forall v, upserts_only (MemoryManager._extract_profile_info v).
Proof.
  intro v. unfold MemoryManager._extract_profile_info.
  apply upserts_only_bind; [apply upserts_only_lower|].
  intro s. apply upserts_only_for_info_types.
Qed.

Lemma upserts_only_db_store :
  forall um ar session imp,
    upserts_only (MemoryDatabase.store_conversation um ar session imp).
Proof.
  intros. unfold MemoryDatabase.store_conversation.
  apply upserts_only_bind; [apply upserts_only_now|].
  intro now. apply upserts_only_execute. reflexivity.
Qed.

Lemma upserts_only_clear : upserts_only MemoryDatabase.clear_memory.
Proof. apply upserts_only_execute. reflexivity. Qed.

Lemma upserts_only_request_name :
  forall req, upserts_only (MemoryServer.request_name req).
Proof. intro req. destruct req; auto with upserts. Qed.

Lemma upserts_only_step :
  forall w w', facade_step w w' ->
               upserted (user_profile (w_db w)) (user_profile (w_db w')).
Proof.
  intros w w' H.
  destruct H as [w | self um ar imp w | self m limit w | self q limit w
                 | self k v w | self w | self w | w | self req w].
  - apply upserted_same.
  - revert w.
    change (upserts_only (MemoryManager.store_conversation self um ar imp)).
    unfold MemoryManager.store_conversation.
    apply upserts_only_bind; [apply upserts_only_extract|]. intros _.
    apply upserts_only_bind; [apply upserts_only_db_store|].
    auto with upserts.
  - rewrite get_context_world. apply upserted_same.
  - rewrite search_memory_world. apply upserted_same.
  - revert w. change (upserts_only (MemoryManager.update_profile self k v)).
    unfold MemoryManager.update_profile. auto with upserts.
  - rewrite get_profile_world. apply upserted_same.
  - apply upserted_same.
  - apply upserted_same.
  - revert w. change (upserts_only (MemoryServer.call_tool self req)).
    unfold MemoryServer.call_tool.
    apply upserts_only_try_except;
      [|intro e; apply upserts_only_bind;
        [apply upserts_only_request_name|auto with upserts]].
    apply upserts_only_bind; [apply upserts_only_request_name|]. intro name.
    destruct req.
    + unfold MemoryServer._store_conversation.
      apply upserts_only_bind; [apply upserts_only_extract|]. intros _.
      apply upserts_only_bind; [apply upserts_only_db_store|].
      auto with upserts.
    + unfold MemoryServer._get_context.
      apply upserts_only_bind; [apply upserts_only_query|]. intro recent.
      apply upserts_only_bind; [apply upserts_only_query|]. intro profile.
      apply upserts_only_if; [|auto with upserts].
      apply upserts_only_bind; [apply upserts_only_query|].
      auto with upserts.
    + unfold MemoryServer._search_memory.
      apply upserts_only_bind; [apply upserts_only_query|].
      intros []; auto with upserts.
    + unfold MemoryServer._update_profile. auto with upserts.
    + unfold MemoryServer._get_profile.
      apply upserts_only_bind; [apply upserts_only_query|].
      intros []; auto with upserts.
    + unfold MemoryServer._clear_memory.
      apply upserts_only_if; [auto with upserts|].
      apply upserts_only_bind; [|auto with upserts].
      apply upserts_only_execute. reflexivity.
    + auto with upserts.
    + auto with upserts.
Qed.

Lemma reachable_keys_NoDup :
  forall w, reachable w -> NoDup (map key (user_profile (w_db w))).
Proof.
  intros w H. induction H as [clock|w w' _ IH Hs].
  - constructor.
  - eapply upserted_keeps_keys_NoDup; [|exact IH].
    now apply upserts_only_step.
Qed.
End ProfileInvariant.

Lemma profile_dict_entries :
  forall (k : str) (p : list profile_fact),
    filter (fun kv => str_eqb (fst kv) k) (map (fun f => (key f, value f)) p)
    = map (fun f => (key f, value f)) (filter (fun f => str_eqb (key f) k) p).
Proof.
  intros k p. induction p as [|f p IH]; simpl; [reflexivity|].
  destruct (str_eqb (key f) k); simpl; now rewrite IH.
Qed.

(** C8. After [update_user_profile(k, v1)] and then
    [update_user_profile(k, v2)] the profile holds one row for [k]: it
    carries [v2] and the clock reading of the second call, and
    [get_user_profile()] maps [k] to [v2] alone. In every world that calls
    of the operations reach from a fresh database, no key has two rows. *)
Theorem upsert_overwrites :
  forall (U : Unicode),
    (forall (k v1 v2 : str) (w : world),
        let w2 :=
          snd ((MemoryDatabase.update_user_profile k v1 ;;
                MemoryDatabase.update_user_profile k v2) w) in
        entries_for k (w_db w2)
        = [ {| key := k; value := v2;
               last_updated := isoformat (w_clock w (S (w_ticks w))) |} ]
        /\ (forall profile,
              fst (MemoryDatabase.get_user_profile w2) = inr profile ->
              filter (fun kv => str_eqb (fst kv) k) profile = [(k, v2)]))
    /\ (forall w : world,
           reachable w -> NoDup (map key (user_profile (w_db w)))).
Proof.
  intro U. split.
  - intros k v1 v2 w w2.
    assert (E : entries_for k (w_db w2)
                = [ {| key := k; value := v2;
                       last_updated := isoformat (w_clock w (S (w_ticks w))) |} ]).
    { subst w2. unfold bind. rewrite update_user_profile_run.
      rewrite update_user_profile_run. simpl.
      apply (entries_for_replace_fact
               {| key := k; value := v2;
                  last_updated := isoformat (w_clock w (S (w_ticks w))) |}). }
    split; [exact E|].
    intros profile Hp. unfold MemoryDatabase.get_user_profile, query in Hp.
    cbn [fst] in Hp. injection Hp as Hp. subst profile.
    rewrite profile_dict_entries.
    exact (f_equal (map (fun f => (key f, value f))) E).
  - intros w H. now apply reachable_keys_NoDup.
Qed.

Lemma upsert_overwrites_example :
  entries_for (u8 "name")
    (w_db (snd ((MemoryDatabase.update_user_profile (u8 "name") (u8 "juan") ;;
                 MemoryDatabase.update_user_profile (u8 "name") (u8 "ana"))
                  fresh_world)))
  = [ {| key := u8 "name"; value := u8 "ana";
         last_updated := u8 "2026-11-03T10:15:01" |} ].
Proof.
  exact (proj1 (proj1 (upsert_overwrites latin1) (u8 "name") (u8 "juan")
                  (u8 "ana") fresh_world)).
Defined.

(* ===================================================================== *)
(** ** search_conversations *)
(* ===================================================================== *)

Lemma like_percent :
  forall (p s : str),
    like_chars (percent :: p) s
    = like_chars p s
      || match s with
         | [] => false
         | _ :: s' => like_chars (percent :: p) s'
         end.
Proof. intros p s. destruct s; reflexivity. Qed.

Lemma like_literal :
  forall (c : N) (p s : str),
    (c =? percent)%N = false ->
    like_chars (c :: p) s
    = match s with
      | [] => false
      | d :: s' =>
        ((c =? underscore) || (like_fold c =? like_fold d))%N
        && like_chars p s'
      end.
Proof. intros c p s H. simpl. now rewrite H. Qed.

Lemma like_any : forall s : str, like_chars [percent] s = true.
Proof.
  induction s as [|d s IH]; [reflexivity|].
  rewrite like_percent, IH. apply orb_true_r.
Qed.

Lemma c_string_nul_free :
  forall s : str, nul_free s = true -> c_string s = s.
Proof.
  induction s as [|c s IH]; simpl; intro H; [reflexivity|].
  apply andb_true_iff in H. destruct H as [Hc Hs].
  apply negb_true_iff in Hc. rewrite Hc. now rewrite IH.
Qed.

Lemma like_pattern_c_string :
  forall q : str,
    nul_free q = true ->
    c_string (MemoryDatabase.like_pattern q) = percent :: q ++ [percent].
Proof.
  intros q H. apply c_string_nul_free.
  unfold MemoryDatabase.like_pattern, nul_free. simpl.
  rewrite forallb_app. fold (nul_free q). rewrite H. reflexivity.
Qed.





Lemma recent_precedes_iff :
  forall a b, MemoryDatabase.recent_precedes a b = true <-> newer_or_equal a b.
Proof.
  intros a b. unfold MemoryDatabase.recent_precedes, newer_or_equal.
  destruct (str_compare (timestamp a) (timestamp b)); split; intro H;
    try reflexivity; try discriminate; congruence.
Qed.

Lemma recent_precedes_total :
  forall a b,
    MemoryDatabase.recent_precedes a b = false ->
    MemoryDatabase.recent_precedes b a = true.
Proof.
  intros a b. unfold MemoryDatabase.recent_precedes.
  rewrite (str_compare_antisym (timestamp a) (timestamp b)).
  destruct (str_compare (timestamp a) (timestamp b)); simpl; congruence.
Qed.

Lemma recent_precedes_trans :
  forall a b c,
    MemoryDatabase.recent_precedes a b = true ->
    MemoryDatabase.recent_precedes b c = true ->
    MemoryDatabase.recent_precedes a c = true.
Proof.
  intros a b c Hab Hbc. apply recent_precedes_iff.
  apply recent_precedes_iff in Hab. apply recent_precedes_iff in Hbc.
  unfold newer_or_equal in *. eapply str_compare_ge_trans; eassumption.
Qed.





Lemma StronglySorted_weaken :
  forall (A : Type) (R S : A -> A -> Prop) (l : list A),
    (forall a b, R a b -> S a b) -> StronglySorted R l -> StronglySorted S l.
Proof.
  intros A R S l HRS H. induction H as [|x l _ IH Hall]; constructor.
  - exact IH.
  - eapply Forall_impl; [|exact Hall]. intros b. apply HRS.
Qed.





(* ===================================================================== *)
(** ** The profile extractor *)
(* ===================================================================== *)

Lemma subsequence_In :
  forall (A : Type) (l m : list A) (x : A),
    subsequence l m -> In x l -> In x m.
Proof.
  intros A l m x H. induction H as [|y l m _ IH|y l m _ IH]; simpl.
  - auto.
  - intro Hx. right. auto.
  - intros [Hx|Hx]; [now left|right; auto].
Qed.

Lemma subsequence_NoDup :
  forall (A : Type) (l m : list A), subsequence l m -> NoDup m -> NoDup l.
Proof.
  intros A l m H. induction H as [|y l m Hs IH|y l m Hs IH]; intro Hm.
  - constructor.
  - inversion Hm; subst. auto.
  - inversion Hm as [|z k Hn Hd]; subst. constructor; [|auto].
    intro Hy. apply Hn. eapply subsequence_In; eassumption.
Qed.

Lemma keys_determine_item :
  forall (A B : Type) (items : list (A * B)) (k : A) (x y : B),
    NoDup (map fst items) -> In (k, x) items -> In (k, y) items -> x = y.
Proof.
  intros A B items k x y. induction items as [|[k' z] items IH]; simpl.
  - intros _ [].
  - intros Hn Hx Hy. inversion Hn as [|? ? Hk Hr]; subst.
    destruct Hx as [Hx|Hx]; destruct Hy as [Hy|Hy].
    + congruence.
    + injection Hx as -> ->. exfalso. apply Hk.
      apply in_map_iff. exists (k, y). auto.
    + injection Hy as -> ->. exfalso. apply Hk.
      apply in_map_iff. exists (k, x). auto.
    + auto.
Qed.

Section Extractor.
Context {U : Unicode}.

(** The inner loop stops at the first pattern that matches. *)
Lemma for_patterns_first_match :
  forall info_type pattern_list s,
    MemoryManager.for_patterns info_type pattern_list s
    = match first_match pattern_list s with
      | Some v => MemoryDatabase.update_user_profile info_type v
      | None => ret tt
      end.
Proof.
  intros info_type pattern_list s.
  induction pattern_list as [|p rest IH]; simpl; [reflexivity|].
  destruct (re_search p s); [reflexivity|exact IH].
Qed.

Lemma first_match_iff :
  forall pattern_list s v,
    first_match pattern_list s = Some v <-> first_match_is pattern_list s v.
Proof.
  intros pattern_list s v. unfold first_match_is.
  induction pattern_list as [|p rest IH]; simpl.
  - split; [discriminate|].
    intros [before [q [after [H _]]]]. destruct before; discriminate.
  - destruct (re_search p s) as [g|] eqn:E.
    + split.
      * intro H. exists [], p, rest. simpl. repeat split; [|congruence].
        intros p' [].
      * intros [before [q [after [H [Hb Hq]]]]].
        destruct before as [|b before]; simpl in H; injection H as Hp Hr.
        -- congruence.
        -- specialize (Hb b (or_introl eq_refl)). exfalso. congruence.
    + rewrite IH. split.
      * intros [before [q [after [H [Hb Hq]]]]].
        exists (p :: before), q, after. simpl. repeat split.
        -- now rewrite H.
        -- intros p' [Hp|Hp]; [now subst p'|now apply Hb].
        -- exact Hq.
      * intros [before [q [after [H [Hb Hq]]]]].
        destruct before as [|b before]; simpl in H; injection H as Hp Hr.
        -- exfalso. congruence.
        -- exists before, q, after. repeat split; [exact Hr| |exact Hq].
           intros p' Hp'. apply Hb. now right.
Qed.

Lemma first_match_none :
  forall pattern_list s,
    (forall p, In p pattern_list -> re_search p s = None) ->
    first_match pattern_list s = None.
Proof.
  intros pattern_list s. induction pattern_list as [|p rest IH]; simpl;
    intro H; [reflexivity|].
  rewrite (H p (or_introl eq_refl)). apply IH. intros q Hq. apply H.
  now right.
Qed.

(** The outer loop performs, in the order of the table, the upsert of
    each item that has a match. *)
Lemma for_info_types_extracted :
  forall items s w,
    MemoryManager.for_info_types items s w
    = upsert_all (extracted items s) w.
Proof.
  intros items s. induction items as [|[info_type pattern_list] rest IH];
    intro w; [reflexivity|].
  simpl MemoryManager.for_info_types. rewrite for_patterns_first_match.
  unfold extracted. simpl flat_map.
  destruct (first_match pattern_list s) as [v|]; simpl.
  - unfold bind. rewrite update_user_profile_run. apply IH.
  - unfold bind, ret. apply IH.
Qed.

Lemma extracted_In :
  forall items s info_type v,
    In (info_type, v) (extracted items s)
    <-> exists pattern_list,
          In (info_type, pattern_list) items
          /\ first_match pattern_list s = Some v.
Proof.
  intros items s info_type v. unfold extracted. rewrite in_flat_map. split.
  - intros [[k pl] [Hi Hv]]. simpl in Hv.
    destruct (first_match pl s) as [g|] eqn:E; [|destruct Hv].
    destruct Hv as [Hv|[]]. injection Hv as -> ->. eauto.
  - intros [pl [Hi Hm]]. exists (info_type, pl). split; [exact Hi|].
    simpl. rewrite Hm. now left.
Qed.

Lemma extracted_keys :
  forall items s,
    subsequence (map fst (extracted items s)) (map fst items).
Proof.
  intros items s. induction items as [|[k pl] rest IH]; simpl.
  - constructor.
  - unfold extracted in *. simpl.
    destruct (first_match pl s); simpl; now constructor.
Qed.

Lemma patterns_keys :
  map fst MemoryManager.patterns
  = [u8 "name"; u8 "age"; u8 "profession"; u8 "location"].
Proof. reflexivity. Qed.

Lemma patterns_keys_NoDup : NoDup (map fst MemoryManager.patterns).
Proof.
  rewrite patterns_keys.
  repeat constructor; simpl; intuition discriminate.
Qed.

Lemma extract_run :
  forall msg w,
    MemoryManager._extract_profile_info (PStr msg) w
    = upsert_all (extracted MemoryManager.patterns (str_lower msg)) w.
Proof.
  intros msg w.
  change (MemoryManager._extract_profile_info (PStr msg) w)
    with (MemoryManager.for_info_types MemoryManager.patterns
            (str_lower msg) w).
  apply for_info_types_extracted.
Qed.
End Extractor.

(** C7. The table of the extractor lists the four types name, age,
    profession, location in that order, each with its ordered patterns. On
    a user utterance the extractor performs a sequence of upserts whose
    keys run through name, age, profession, location in that order, each
    at most once. For each of the four types the value upserted is the
    group of the first pattern of that type's list that matches the
    lower-cased utterance, whatever the other types did; a type none of
    whose patterns matches is not upserted. The extractor of the tool
    surface does the same. *)
Theorem extractor_first_match_wins :
  forall (U : Unicode) (msg : str) (w : world),
    MemoryManager.patterns
    = [ (u8 "name",
         [ pat "mi nombre es " word_class no_suffix;
           pat "me llamo " word_class no_suffix;
           pat "soy " word_class no_suffix ]);
        (u8 "age",
         [ pat "tengo " digit_class " años";
           pat "mi edad es " digit_class no_suffix ]);
        (u8 "profession",
         [ pat "soy " word_class no_suffix;
           pat "trabajo como " word_class no_suffix;
           pat "estudio " word_class no_suffix ]);
        (u8 "location",
         [ pat "vivo en " word_class no_suffix;
           pat "soy de " word_class no_suffix ]) ]
    /\ exists facts : list (str * str),
      MemoryManager._extract_profile_info (PStr msg) w = upsert_all facts w
      /\ MemoryServer._extract_profile_info (PStr msg) w = upsert_all facts w
      /\ subsequence (map fst facts)
           [u8 "name"; u8 "age"; u8 "profession"; u8 "location"]
      /\ NoDup (map fst facts)
      /\ forall info_type pattern_list,
           In (info_type, pattern_list) MemoryManager.patterns ->
           (forall v,
               In (info_type, v) facts
               <-> first_match_is pattern_list (str_lower msg) v)
           /\ ((forall p, In p pattern_list ->
                          re_search p (str_lower msg) = None) ->
               ~ In info_type (map fst facts)).
Proof.
  intros U msg w. split; [reflexivity|].
  exists (extracted MemoryManager.patterns (str_lower msg)).
  assert (Hsub : subsequence
                   (map fst (extracted MemoryManager.patterns (str_lower msg)))
                   (map fst MemoryManager.patterns))
    by apply extracted_keys.
  assert (Hiff : forall info_type pattern_list v,
             In (info_type, pattern_list) MemoryManager.patterns ->
             (In (info_type, v) (extracted MemoryManager.patterns (str_lower msg))
              <-> first_match pattern_list (str_lower msg) = Some v)).
  { intros info_type pattern_list v Hin. rewrite extracted_In. split.
    - intros [pl [Hpl Hm]].
      now rewrite (keys_determine_item _ _ _ _ patterns_keys_NoDup Hin Hpl).
    - intro Hm. eauto. }
  split; [apply extract_run|].
  split; [apply extract_run|].
  split; [exact Hsub|].
  split; [exact (subsequence_NoDup Hsub patterns_keys_NoDup)|].
  intros info_type pattern_list Hin. split.
  - intro v. rewrite (Hiff _ _ v Hin). apply first_match_iff.
  - intros Hnone Hk. apply in_map_iff in Hk.
    destruct Hk as [[k v] [Hkv Hf]]. simpl in Hkv. subst k.
    apply (Hiff _ _ v Hin) in Hf.
    rewrite (first_match_none _ _ Hnone) in Hf. discriminate.
Qed.

(* ===================================================================== *)
(** ** store_conversation *)
(* ===================================================================== *)

Lemma bind_same_continuation :
  forall (A B : Type) (m m' : M A) (k : A -> M B) (w : world),
    m w = m' w -> bind m k w = bind m' k w.
Proof. intros A B m m' k w H. unfold bind. now rewrite H. Qed.

Section Store.
Context {U : Unicode}.

(** Upserts return normally and leave the conversation and summary
    relations alone. *)
Lemma upsert_all_run :
  forall facts w,
    exists w',
      upsert_all facts w = (inr tt, w')
      /\ conversations (w_db w') = conversations (w_db w)
      /\ conversations_seq (w_db w') = conversations_seq (w_db w)
      /\ memory_summaries (w_db w') = memory_summaries (w_db w).
Proof.
  induction facts as [|[k v] rest IH]; intro w.
  - exists w. repeat split.
  - simpl upsert_all. unfold bind. rewrite update_user_profile_run.
    destruct (IH {| w_db :=
                      MemoryDatabase.replace_fact
                        {| key := k; value := v;
                           last_updated := isoformat (w_clock w (w_ticks w)) |}
                        (w_db w);
                    w_clock := w_clock w;
                    w_ticks := S (w_ticks w) |})
      as [w' [Hr [Hc [Hs Hm]]]].
    exists w'. repeat split; assumption.
Qed.

(** The extractor raises exactly on a message that is not a [str], and
    then before any write. *)
Lemma extract_not_str :
  forall v w,
    (forall s, v <> PStr s) ->
    MemoryManager._extract_profile_info v w
    = (inl (AttributeError (type_name v) (u8 "lower")), w).
Proof.
  intros v w H. destruct v; try reflexivity.
  exfalso. now apply (H s).
Qed.

Lemma store_conversation_str_run :
  forall self s assistant_response imp w,
    MemoryManager.store_conversation self (PStr s) assistant_response imp w
    = bind (upsert_all (extracted MemoryManager.patterns (str_lower s)))
        (fun _ =>
           conv_id <- MemoryDatabase.store_conversation s assistant_response
                        (MemoryManager.current_session self) imp ;;
           ret (u8 "Stored conversation #" ++ decimal conv_id
                ++ u8 " successfully")) w.
Proof.
  intros self s assistant_response imp w.
  unfold MemoryManager.store_conversation.
  apply bind_same_continuation. apply extract_run.
Qed.

Lemma db_store_conversation_run :
  forall um ar session imp w,
    MemoryDatabase.store_conversation um ar session imp w
    = (inr (MemoryDatabase.next_id (w_db w)),
       {| w_db :=
            {| conversations :=
                 conversations (w_db w)
                 ++ [ {| id := MemoryDatabase.next_id (w_db w);
                         timestamp := isoformat (w_clock w (w_ticks w));
                         session_id := session;
                         user_message := um;
                         assistant_response := ar;
                         importance_score := imp |} ];
               conversations_seq := MemoryDatabase.next_id (w_db w);
               memory_summaries := memory_summaries (w_db w);
               user_profile := user_profile (w_db w) |};
          w_clock := w_clock w;
          w_ticks := S (w_ticks w) |}).
Proof. reflexivity. Qed.
End Store.

(** C2, as the code has it. The facade's store operation runs the
    extractor first and has no handler around it. When the extractor
    raises, as it does on a message that is not a [str], the same
    exception leaves [store_conversation] and nothing is written: no
    conversation row is inserted and the world is as the extractor left
    it; through the tool surface [call_tool] answers with the [Error:]
    text, again with no row inserted. *)
Theorem store_conversation_extraction_outcome :
  forall (U : Unicode) (manager : MemoryManager.t) (server : MemoryServer.t)
         (message : pyval) (reply : str) (imp : Q) (w : world)
         (e : exn) (w1 : world),
    MemoryManager._extract_profile_info message w = (inl e, w1) ->
    MemoryManager.store_conversation manager message reply imp w = (inl e, w1)
    /\ MemoryServer.call_tool server
         (MemoryServer.call_store_conversation
            {| MemoryServer.arg_user_message := message;
               MemoryServer.arg_assistant_response := reply;
               MemoryServer.arg_importance := Some imp |}) w
       = (inr (u8 "Error: " ++ exn_message e), w1)
    /\ conversations (w_db w1) = conversations (w_db w)
    /\ (forall s, message <> PStr s)
    /\ e = AttributeError (type_name message) (u8 "lower")
    /\ w1 = w.
Proof.
  intros U manager server message reply imp w e w1 H.
  destruct message as [| b | z | q | s].
  1-4: injection H as <- <-; repeat split; intros s; discriminate.
  exfalso. rewrite extract_run in H.
  destruct (upsert_all_run
              (extracted MemoryManager.patterns (str_lower s)) w)
    as [w2 [Hr _]].
  rewrite Hr in H. discriminate.
Qed.

Lemma store_conversation_extraction_outcome_example :
  MemoryManager.store_conversation (U := latin1) sample_manager PNone
    (u8 "Hola") 1 fresh_world
  = (inl (AttributeError (u8 "NoneType") (u8 "lower")), fresh_world).
Proof.
  exact (proj1 (@store_conversation_extraction_outcome latin1 sample_manager
                  sample_server PNone (u8 "Hola") 1 fresh_world
                  (AttributeError (u8 "NoneType") (u8 "lower")) fresh_world
                  eq_refl)).
Defined.

(** C2 fails as stated: with a user message that is not a string the
    extractor raises, [store_conversation] raises with it, the tool surface
    reports the error, and the conversation relation stays empty. *)
Lemma store_conversation_counterexample :
  MemoryManager._extract_profile_info (U := latin1) PNone fresh_world
  = (inl (AttributeError (u8 "NoneType") (u8 "lower")), fresh_world)
  /\ MemoryManager.store_conversation (U := latin1) sample_manager PNone
       (u8 "Hola") 1 fresh_world
     = (inl (AttributeError (u8 "NoneType") (u8 "lower")), fresh_world)
  /\ MemoryServer.call_tool (U := latin1) sample_server
       (MemoryServer.call_store_conversation null_message_args) fresh_world
     = (inr (u8 "Error: 'NoneType' object has no attribute 'lower'"),
        fresh_world)
  /\ conversations (w_db fresh_world) = [].
Proof. repeat split. Qed.

(* ===================================================================== *)
(** ** The end-to-end scenario *)
(* ===================================================================== *)

Lemma extracted_turn1 :
  extracted (U := latin1) MemoryManager.patterns
    (str_lower (Unicode := latin1) (u8 "Mi nombre es Juan"))
  = [(u8 "name", u8 "juan")].
Proof. vm_compute. reflexivity. Qed.

Lemma extracted_turn2 :
  extracted (U := latin1) MemoryManager.patterns
    (str_lower (Unicode := latin1) (u8 "Tengo 25 años"))
  = [(u8 "age", u8 "25")].
Proof. vm_compute. reflexivity. Qed.

(** One sentence can feed two types: "soy" is a pattern of the name and of
    the profession. *)
Example extracted_soy_ingeniero :
  extracted (U := latin1) MemoryManager.patterns
    (str_lower (Unicode := latin1) (u8 "Soy ingeniero"))
  = [(u8 "name", u8 "ingeniero"); (u8 "profession", u8 "ingeniero")].
Proof. vm_compute. reflexivity. Qed.

(** C3, as the code has it. After the two exchanges
    ("Mi nombre es Juan", "Hola Juan") and ("Tengo 25 años",
    "Qué interesante") are stored on an empty profile, the profile holds
    name = "juan", taken from the lower-cased message, and age = "25", in
    that order and nothing else; [get_profile()] is their JSON text. *)
Theorem juan_scenario_profile :
  forall (self : MemoryManager.t) (w : world),
    user_profile (w_db w) = [] ->
    fst (juan_scenario self w)
    = inr ([(u8 "name", u8 "juan"); (u8 "age", u8 "25")],
           json_dumps [(u8 "name", u8 "juan"); (u8 "age", u8 "25")]).
Proof.
  intros self [[convs seq sums profile] clock ticks] H.
  simpl in H. subst profile.
  unfold juan_scenario.
  unfold bind at 1. rewrite store_conversation_str_run, extracted_turn1.
  unfold bind at 1. simpl upsert_all. unfold bind at 1.
  rewrite update_user_profile_run. unfold ret at 1.
  unfold bind at 1. rewrite db_store_conversation_run. unfold ret at 1.
  unfold bind at 1. rewrite store_conversation_str_run, extracted_turn2.
  unfold bind at 1. simpl upsert_all. unfold bind at 1.
  rewrite update_user_profile_run. unfold ret at 1.
  unfold bind at 1. rewrite db_store_conversation_run. unfold ret at 1.
  reflexivity.
Qed.

Lemma juan_scenario_profile_fresh :
  fst (juan_scenario sample_manager fresh_world)
  = inr ([(u8 "name", u8 "juan"); (u8 "age", u8 "25")],
         json_dumps [(u8 "name", u8 "juan"); (u8 "age", u8 "25")]).
Proof.
  exact (juan_scenario_profile sample_manager fresh_world eq_refl).
Defined.

(** C3 fails as stated: the profile never holds name = "Juan". *)
Lemma juan_scenario_counterexample :
  exists profile text,
    fst (juan_scenario sample_manager fresh_world) = inr (profile, text)
    /\ ~ In (u8 "name", u8 "Juan") profile
    /\ In (u8 "name", u8 "juan") profile.
Proof.
  eexists. eexists. split; [vm_compute; reflexivity|].
  split.
  - intro H. vm_compute in H. intuition discriminate.
  - vm_compute. left. reflexivity.
Qed.

(* ===================================================================== *)
(** ** The session of the recent-conversation step *)
(* ===================================================================== *)

Lemma uint_digits_no_letter :
  forall d, Forall (fun c => c <> 100%N) (uint_digits d).
Proof.
  induction d; simpl; constructor; try assumption; discriminate.
Qed.

Lemma zero_pad_no_letter :
  forall width n, Forall (fun c => c <> 100%N) (zero_pad width n).
Proof.
  intros width n. unfold zero_pad, decimal. apply Forall_app. split.
  - apply Forall_forall. intros c Hc. apply repeat_spec in Hc. subst c.
    discriminate.
  - apply uint_digits_no_letter.
Qed.

(** The session token is made of digits and one underscore: it is never
    the string "default". *)
Lemma strftime_session_not_default :
  forall dt, str_eqb (strftime_session dt) MemoryDatabase.default_session = false.
Proof.
  intro dt. apply str_eqb_neq. intro E.
  assert (H : Forall (fun c => c <> 100%N) (strftime_session dt)).
  { unfold strftime_session. change (u8 "_") with [95%N].
    do 3 (apply Forall_app; split; [apply zero_pad_no_letter|]).
    constructor; [discriminate|].
    do 2 (apply Forall_app; split; [apply zero_pad_no_letter|]).
    apply zero_pad_no_letter. }
  rewrite E in H. inversion H as [|c l Hc _]. now apply Hc.
Qed.

(** What the recent-conversation step reads is the same before and after
    a store made by a facade that [__init__] has set up. *)
Lemma recent_step_ignores_store :
  forall (U : Unicode) (dt : datetime) (message : pyval) (reply : str)
         (imp : Q) (limit : Z) (w : world),
    MemoryDatabase.select_recent limit MemoryDatabase.default_session
      (w_db (snd (MemoryManager.store_conversation
                    {| MemoryManager.current_session := strftime_session dt |}
                    message reply imp w)))
    = MemoryDatabase.select_recent limit MemoryDatabase.default_session (w_db w).
Proof.
  intros U dt message reply imp limit w.
  destruct message as [| b | z | q | s]; try reflexivity.
  rewrite store_conversation_str_run. unfold bind at 1.
  destruct (upsert_all_run
              (extracted MemoryManager.patterns (str_lower s)) w)
    as [w1 [Hr [Hc _]]].
  rewrite Hr. unfold bind. rewrite db_store_conversation_run.
  unfold MemoryDatabase.select_recent. simpl.
  rewrite filter_app. simpl. rewrite strftime_session_not_default.
  rewrite app_nil_r, Hc. reflexivity.
Qed.

(** C1 on the code. A facade created on a fresh database stores the
    exchange ("hola", "que tal") and is asked for the context of "hi": the
    answer is "hi" alone, with no recent-conversation section. With a
    stored exchange that the next message repeats, the exchange comes back
    under the relevant-conversations heading only. In general, a store
    through the facade never changes what the recent step of
    [get_context] reads, because that step asks for the session
    "default". *)
Theorem recent_step_misses_stored_turn :
  fst (store_then_context fresh_world) = inr (u8 "hi")
  /\ fst (store_then_long_context fresh_world)
     = inr (join nl [ u8 "Conversaciones relevantes anteriores:";
                      u8 "Usuario: me gusta el ajedrez";
                      u8 "Asistente: que bien" ]
            ++ MemoryManager.instruction_suffix (u8 "me gusta el ajedrez"))
  /\ forall (U : Unicode) (dt : datetime) (message : pyval) (reply : str)
            (imp : Q) (limit : Z) (w : world),
       MemoryDatabase.select_recent limit MemoryDatabase.default_session
         (w_db (snd (MemoryManager.store_conversation
                       {| MemoryManager.current_session := strftime_session dt |}
                       message reply imp w)))
       = MemoryDatabase.select_recent limit MemoryDatabase.default_session
           (w_db w).
Proof.
  split; [vm_compute; reflexivity|].
  split; [vm_compute; reflexivity|].
  apply recent_step_ignores_store.
Qed.

(* ===================================================================== *)
(** ** Frames: what the operations leave in a relation *)
(* ===================================================================== *)

Section Frames.
Variable R : database -> database -> Prop.
Hypothesis R_refl : forall db, R db db.
Hypothesis R_trans : forall a b c, R a b -> R b c -> R a c.

Lemma keeps_ret : forall (A : Type) (a : A), keeps R (ret a).
Proof. intros A a w. apply R_refl. Qed.

Lemma keeps_raise : forall (A : Type) (e : exn), keeps R (@raise A e).
Proof. intros A e w. apply R_refl. Qed.

Lemma keeps_now : keeps R datetime_now.
Proof. intro w. apply R_refl. Qed.

Lemma keeps_query : forall (A : Type) (f : database -> A), keeps R (query f).
Proof. intros A f w. apply R_refl. Qed.

Lemma keeps_bind :
  forall (A B : Type) (m : M A) (k : A -> M B),
    keeps R m -> (forall a, keeps R (k a)) -> keeps R (bind m k).
Proof.
  intros A B m k Hm Hk w. unfold bind.
  specialize (Hm w). destruct (m w) as [[e|a] w1]; simpl in *; [exact Hm|].
  eapply R_trans; [exact Hm|]. apply Hk.
Qed.

Lemma keeps_try_except :
  forall (A : Type) (m : M A) (h : exn -> M A),
    keeps R m -> (forall e, keeps R (h e)) -> keeps R (try_except m h).
Proof.
  intros A m h Hm Hh w. unfold try_except.
  specialize (Hm w). destruct (m w) as [[e|a] w1]; simpl in *; [|exact Hm].
  eapply R_trans; [exact Hm|]. apply Hh.
Qed.

Lemma keeps_if :
  forall (A : Type) (b : bool) (m1 m2 : M A),
    keeps R m1 -> keeps R m2 -> keeps R (if b then m1 else m2).
Proof. intros A b m1 m2 H1 H2. now destruct b. Qed.

Lemma keeps_execute :
  forall (A : Type) (f : database -> A * database),
    (forall db, R db (snd (f db))) -> keeps R (execute f).
Proof.
  intros A f H w. unfold execute. specialize (H (w_db w)).
  destruct (f (w_db w)) as [a db']. exact H.
Qed.

Context {U : Unicode}.
Variable ok : str -> Prop.
Hypothesis R_replace : forall f db, R db (MemoryDatabase.replace_fact f db).
Hypothesis R_clear :
  forall db,
    R db (MemoryDatabase.delete_memory_summaries
            (MemoryDatabase.delete_conversations db)).
Hypothesis R_insert :
  forall db ts session um ar imp,
    ok session ->
    R db (snd (MemoryDatabase.insert_conversation
                 {| id := MemoryDatabase.next_id db;
                    timestamp := ts;
                    session_id := session;
                    user_message := um;
                    assistant_response := ar;
                    importance_score := imp |} db)).

Lemma keeps_update_user_profile :
  forall k v, keeps R (MemoryDatabase.update_user_profile k v).
Proof.
  intros k v. unfold MemoryDatabase.update_user_profile.
  apply keeps_bind; [apply keeps_now|]. intro now.
  apply keeps_execute. intro db. apply R_replace.
Qed.

Lemma keeps_for_patterns :
  forall info_type pattern_list s,
    keeps R (MemoryManager.for_patterns info_type pattern_list s).
Proof.
  intros info_type pattern_list s.
  induction pattern_list as [|p rest IH]; simpl; [apply keeps_ret|].
  destruct (re_search p s); [apply keeps_update_user_profile|exact IH].
Qed.

Lemma keeps_for_info_types :
  forall items s, keeps R (MemoryManager.for_info_types items s).
Proof.
  intros items s. induction items as [|[info_type pattern_list] rest IH];
    simpl; [apply keeps_ret|].
  apply keeps_bind; [apply keeps_for_patterns|]. intros _. exact IH.
Qed.

Lemma keeps_extract :
  forall v, keeps R (MemoryManager._extract_profile_info v).
Proof.
  intro v. unfold MemoryManager._extract_profile_info.
  apply keeps_bind.
  - destruct v; simpl; (apply keeps_ret || apply keeps_raise).
  - intro s. apply keeps_for_info_types.
Qed.

Lemma keeps_db_store :
  forall um ar session imp,
    ok session ->
    keeps R (MemoryDatabase.store_conversation um ar session imp).
Proof.
  intros um ar session imp Hok. unfold MemoryDatabase.store_conversation.
  apply keeps_bind; [apply keeps_now|]. intro now.
  apply keeps_execute. intro db. now apply R_insert.
Qed.

Lemma keeps_manager_store :
  forall self message reply imp,
    ok (MemoryManager.current_session self) ->
    keeps R (MemoryManager.store_conversation self message reply imp).
Proof.
  intros self message reply imp Hok. unfold MemoryManager.store_conversation.
  apply keeps_bind; [apply keeps_extract|]. intros _.
  apply keeps_bind; [now apply keeps_db_store|]. intro n. apply keeps_ret.
Qed.

Lemma keeps_request_name :
  forall req, keeps R (MemoryServer.request_name req).
Proof. intro req. destruct req; first [apply keeps_ret|apply keeps_raise]. Qed.

Lemma keeps_call_tool :
  forall self req,
    ok (MemoryServer.current_session self) ->
    keeps R (MemoryServer.call_tool self req).
Proof.
  intros self req Hok. unfold MemoryServer.call_tool.
  apply keeps_try_except;
    [|intro e; apply keeps_bind;
      [apply keeps_request_name|intro name; apply keeps_ret]].
  apply keeps_bind; [apply keeps_request_name|]. intro name.
  destruct req.
  - unfold MemoryServer._store_conversation.
    apply keeps_bind; [apply keeps_extract|]. intros _.
    apply keeps_bind; [now apply keeps_db_store|]. intro n. apply keeps_ret.
  - unfold MemoryServer._get_context.
    apply keeps_bind; [apply keeps_query|]. intro recent.
    apply keeps_bind; [apply keeps_query|]. intro profile.
    apply keeps_if; [|apply keeps_ret].
    apply keeps_bind; [apply keeps_query|]. intro relevant. apply keeps_ret.
  - unfold MemoryServer._search_memory.
    apply keeps_bind; [apply keeps_query|]. intros []; apply keeps_ret.
  - unfold MemoryServer._update_profile.
    apply keeps_bind; [apply keeps_update_user_profile|]. intros _.
    apply keeps_ret.
  - unfold MemoryServer._get_profile.
    apply keeps_bind; [apply keeps_query|]. intros []; apply keeps_ret.
  - unfold MemoryServer._clear_memory.
    apply keeps_if; [apply keeps_ret|].
    apply keeps_bind; [|intros _; apply keeps_ret].
    apply keeps_execute. intro db. apply R_clear.
  - apply keeps_ret.
  - apply keeps_ret.
Qed.

(** Every call of an operation stays within [R]. *)
Lemma keeps_step :
  forall w w', facade_step_with ok w w' -> R (w_db w) (w_db w').
Proof.
  intros w w' H.
  destruct H as [w | self message reply imp w Hok | self m limit w
                 | self q limit w | self k v w | self w | self w | w
                 | self req w Hok].
  - apply R_refl.
  - now apply keeps_manager_store.
  - rewrite get_context_world. apply R_refl.
  - rewrite search_memory_world. apply R_refl.
  - revert w. change (keeps R (MemoryManager.update_profile self k v)).
    unfold MemoryManager.update_profile.
    apply keeps_bind; [apply keeps_update_user_profile|]. intros _.
    apply keeps_ret.
  - rewrite get_profile_world. apply R_refl.
  - apply R_clear.
  - apply R_refl.
  - now apply keeps_call_tool.
Qed.
End Frames.

(** A call by any facade or server is a call by one whose session is not
    constrained. *)
Lemma facade_step_any_session :
  forall (U : Unicode) (w w' : world),
    facade_step w w' -> facade_step_with (fun _ => True) w w'.
Proof.
  intros U w w' H.
  destruct H as [w | self um ar imp w | self m limit w | self q limit w
                 | self k v w | self w | self w | w | self req w].
  - apply with_manager_init.
  - now apply with_store_conversation.
  - apply with_get_context.
  - apply with_search_memory.
  - apply with_update_profile.
  - apply with_get_profile.
  - apply with_clear_memory.
  - apply with_server_init.
  - now apply with_call_tool.
Qed.

(* ===================================================================== *)
(** ** Invariants of the store *)
(* ===================================================================== *)

Lemma fold_max_ge_init :
  forall (l : list N) (n : N), (n <= fold_right N.max n l)%N.
Proof.
  induction l as [|x l IH]; intro n; simpl; [lia|].
  specialize (IH n). lia.
Qed.

Lemma fold_max_ge_elem :
  forall (l : list N) (n x : N), In x l -> (x <= fold_right N.max n l)%N.
Proof.
  induction l as [|y l IH]; intros n x H; simpl in *; [contradiction|].
  destruct H as [<-|H]; [lia|]. specialize (IH n x H). lia.
Qed.

Lemma next_id_above_seq :
  forall db, (conversations_seq db < MemoryDatabase.next_id db)%N.
Proof.
  intro db. unfold MemoryDatabase.next_id.
  pose proof (fold_max_ge_init (map id (conversations db)) (conversations_seq db)).
  lia.
Qed.

Lemma next_id_above_ids :
  forall db,
    Forall (fun c => (id c < MemoryDatabase.next_id db)%N) (conversations db).
Proof.
  intro db. apply Forall_forall. intros c Hc. unfold MemoryDatabase.next_id.
  assert (H : In (id c) (map id (conversations db))) by now apply in_map.
  pose proof (fold_max_ge_elem _ (conversations_seq db) _ H). lia.
Qed.

Lemma StronglySorted_snoc :
  forall (l : list N) (x : N),
    StronglySorted N.lt l -> Forall (fun y => (y < x)%N) l ->
    StronglySorted N.lt (l ++ [x]).
Proof.
  intros l x Hs Hall. induction Hs as [|y l Hs IH Hy]; simpl.
  - constructor; constructor.
  - inversion Hall as [|? ? Hyx Hrest]; subst. constructor; [now apply IH|].
    apply Forall_app. split; [exact Hy|]. constructor; [exact Hyx|constructor].
Qed.

(** The relation that the ids keep along the operations. *)
Lemma ids_insert :
  forall db ts session um ar imp,
    (conversations_seq db
     <= conversations_seq
          (snd (MemoryDatabase.insert_conversation
                  {| id := MemoryDatabase.next_id db; timestamp := ts;
                     session_id := session; user_message := um;
                     assistant_response := ar; importance_score := imp |} db)))%N
    /\ (ids_in_order db ->
        ids_in_order
          (snd (MemoryDatabase.insert_conversation
                  {| id := MemoryDatabase.next_id db; timestamp := ts;
                     session_id := session; user_message := um;
                     assistant_response := ar; importance_score := imp |} db))).
Proof.
  intros db ts session um ar imp. simpl. split.
  - pose proof (next_id_above_seq db). lia.
  - intros [Hs Hb]. unfold ids_in_order. simpl. split.
    + rewrite map_app. simpl. apply StronglySorted_snoc; [exact Hs|].
      apply Forall_map. apply next_id_above_ids.
    + apply Forall_app. split.
      * eapply Forall_impl; [|apply next_id_above_ids].
        intros c Hc. simpl in Hc. lia.
      * constructor; [simpl; lia|constructor].
Qed.

Section StoreInvariants.
Context {U : Unicode}.

Lemma ids_step :
  forall w w',
    facade_step w w' ->
    (conversations_seq (w_db w) <= conversations_seq (w_db w'))%N
    /\ (ids_in_order (w_db w) -> ids_in_order (w_db w')).
Proof.
  intros w w' H. apply facade_step_any_session in H.
  refine (keeps_step
            (fun a b =>
               (conversations_seq a <= conversations_seq b)%N
               /\ (ids_in_order a -> ids_in_order b))
            _ _ (ok := fun _ => True) _ _ _ H); cbv beta.
  - intro db. split; [lia|auto].
  - intros a b c [H1 H2] [H3 H4]. split; [lia|auto].
  - intros f db. split; [simpl; lia|]. intro Hi. exact Hi.
  - intro db. split; [simpl; lia|]. intros _. split; simpl; constructor.
  - intros db ts session um ar imp _. apply ids_insert.
Qed.

Lemma reachable_ids_in_order :
  forall w, reachable w -> ids_in_order (w_db w).
Proof.
  intros w H. induction H as [clock|w w' _ IH Hs].
  - split; simpl; constructor.
  - now apply (ids_step Hs).
Qed.

Lemma summaries_step :
  forall w w',
    facade_step w w' ->
    memory_summaries (w_db w') = memory_summaries (w_db w)
    \/ memory_summaries (w_db w') = [].
Proof.
  intros w w' H. apply facade_step_any_session in H.
  refine (keeps_step
            (fun a b =>
               memory_summaries b = memory_summaries a
               \/ memory_summaries b = [])
            _ _ (ok := fun _ => True) _ _ _ H); cbv beta.
  - intro db. now left.
  - intros a b c [H1|H1] [H2|H2]; rewrite H2; auto.
  - intros f db. now left.
  - intro db. now right.
  - intros db ts session um ar imp _. now left.
Qed.

Lemma session_step :
  forall w w',
    facade_step_with init_session w w' ->
    no_default_session (w_db w) -> no_default_session (w_db w').
Proof.
  intros w w' H.
  refine (keeps_step
            (fun a b => no_default_session a -> no_default_session b)
            _ _ (ok := init_session) _ _ _ H); cbv beta.
  - auto.
  - auto.
  - intros f db Hn. exact Hn.
  - intros db _. constructor.
  - intros db ts session um ar imp [dt ->] Hn.
    unfold no_default_session. simpl. apply Forall_app. split; [exact Hn|].
    constructor; [|constructor]. simpl. apply strftime_session_not_default.
Qed.

Lemma served_no_default_session :
  forall w, served w -> no_default_session (w_db w).
Proof.
  intros w H. induction H as [clock|w w' _ IH Hs].
  - constructor.
  - now apply (session_step Hs).
Qed.
End StoreInvariants.

Lemma select_recent_default_empty :
  forall limit db,
    no_default_session db ->
    MemoryDatabase.select_recent limit MemoryDatabase.default_session db = [].
Proof.
  intros limit db H. unfold MemoryDatabase.select_recent.
  assert (E : filter
                (fun c => str_eqb (session_id c) MemoryDatabase.default_session)
                (conversations db) = []).
  { unfold no_default_session in H.
    induction H as [|c l Hc _ IH]; simpl; [reflexivity|]. now rewrite Hc. }
  rewrite E. simpl. now rewrite sql_limit_nil.
Qed.

(** X2. Conversation ids are never reused. A store returns an id above the
    AUTOINCREMENT counter and above every id in the table, and sets the
    counter to it; no operation ever lowers the counter, not even
    [clear_memory]; and in every world reached from a fresh database the
    ids increase along the table and none exceeds the counter. *)
Theorem conversation_ids_never_reused :
  forall (U : Unicode),
    (forall um ar session imp w,
        exists n,
          fst (MemoryDatabase.store_conversation um ar session imp w) = inr n
          /\ (conversations_seq (w_db w) < n)%N
          /\ Forall (fun c => (id c < n)%N) (conversations (w_db w))
          /\ conversations_seq
               (w_db (snd (MemoryDatabase.store_conversation um ar session imp w)))
             = n)
    /\ (forall w w',
           facade_step w w' ->
           (conversations_seq (w_db w) <= conversations_seq (w_db w'))%N)
    /\ (forall w, reachable w -> ids_in_order (w_db w)).
Proof.
  intro U. split; [|split].
  - intros um ar session imp w. exists (MemoryDatabase.next_id (w_db w)).
    rewrite db_store_conversation_run. simpl.
    split; [reflexivity|]. split; [apply next_id_above_seq|].
    split; [apply next_id_above_ids|reflexivity].
  - intros w w' H. now apply (ids_step H).
  - apply reachable_ids_in_order.
Qed.

(** X6. The summary relation is dead: no operation of the facade or of the
    tool surface adds a row to it (a call leaves it as it is or empties
    it), and in every world reached from a fresh database it is empty. *)
Theorem memory_summaries_never_written :
  forall (U : Unicode),
    (forall w w',
        facade_step w w' ->
        memory_summaries (w_db w') = memory_summaries (w_db w)
        \/ memory_summaries (w_db w') = [])
    /\ (forall w, reachable w -> memory_summaries (w_db w) = []).
Proof.
  intro U. split; [apply summaries_step|].
  intros w H. induction H as [clock|w w' _ IH Hs]; [reflexivity|].
  destruct (summaries_step Hs) as [E|E]; congruence.
Qed.

(** X10. When every facade and tool server takes its session token from
    [__init__], no stored row is ever tagged "default": in every world
    they reach from a fresh database the recent step of [get_context]
    reads nothing, so the context is made of the profile line and the
    relevance search alone. *)
Theorem served_context_has_no_recent_section :
  forall (U : Unicode) (w : world),
    served w ->
    no_default_session (w_db w)
    /\ (forall limit,
           MemoryDatabase.get_recent_conversations limit
             MemoryDatabase.default_session w = (inr [], w))
    /\ (forall self m limit,
           MemoryManager.get_context self m limit w
           = (inr (MemoryManager.finish_context
                     (MemoryManager.profile_part
                        (map (fun f => (key f, value f)) (user_profile (w_db w)))
                      ++ (if (10 <? length m)%nat
                          then MemoryManager.relevant_part
                                 (MemoryDatabase.select_search m 2 (w_db w))
                          else []))
                     m), w)).
Proof.
  intros U w H. pose proof (served_no_default_session H) as Hn.
  split; [exact Hn|]. split.
  - intro limit. unfold MemoryDatabase.get_recent_conversations, query.
    now rewrite select_recent_default_empty.
  - intros self m limit.
    unfold MemoryManager.get_context, bind,
      MemoryDatabase.get_recent_conversations, MemoryDatabase.get_user_profile,
      MemoryDatabase.search_conversations, query, ret.
    rewrite (select_recent_default_empty limit Hn). simpl MemoryManager.recent_part.
    rewrite app_nil_r.
    destruct (10 <? length m)%nat; [reflexivity|].
    now rewrite app_nil_r.
Qed.

Lemma served_context_example :
  no_default_session
    (w_db (snd (MemoryManager.store_conversation (U := latin1) sample_manager
                  (PStr (u8 "hola")) (u8 "que tal") 1 fresh_world))).
Proof.
  refine (proj1 (served_context_has_no_recent_section (U := latin1) _)).
  eapply served_step; [apply (served_fresh sample_clock)|].
  apply with_store_conversation.
  exists (sample_clock 0). reflexivity.
Defined.

(* ===================================================================== *)
(** ** Recency and search over the store *)
(* ===================================================================== *)

(** X1. [get_recent_conversations(limit, session)] returns rows of that
    session only, newest timestamp first: the first [limit] of the
    session's rows for [limit >= 0] (so at most [limit] rows), all of them
    for a negative limit. The world is left as it was. *)
Theorem get_recent_conversations_ordered :
  forall (limit : Z) (session : str) (w : world),
    exists rows : list conversation,
      Permutation rows
        (filter (fun c => str_eqb (session_id c) session) (conversations (w_db w)))
      /\ Forall (fun c => session_id c = session) rows
      /\ StronglySorted newer_or_equal rows
      /\ MemoryDatabase.get_recent_conversations limit session w
         = (inr (map MemoryDatabase.row_dict
                   (if (limit <? 0)%Z then rows
                    else firstn (Z.to_nat limit) rows)), w)
      /\ ((0 <= limit)%Z ->
          (Z.of_nat (length (MemoryDatabase.select_recent limit session (w_db w)))
           <= limit)%Z).
Proof.
  intros limit session w.
  exists (order_by MemoryDatabase.recent_precedes
            (filter (fun c => str_eqb (session_id c) session)
               (conversations (w_db w)))).
  split; [apply Permutation_sym, order_by_perm|].
  split.
  { apply Forall_forall. intros c Hc.
    apply (Permutation_in _ (Permutation_sym (order_by_perm _ _))) in Hc.
    apply filter_In in Hc. destruct Hc as [_ Hc]. now apply str_eqb_eq. }
  split.
  { eapply StronglySorted_weaken.
    - intros a b. apply recent_precedes_iff.
    - apply order_by_sorted.
      + apply recent_precedes_total.
      + apply recent_precedes_trans. }
  split; [reflexivity|].
  intro Hl. unfold MemoryDatabase.select_recent. rewrite length_map.
  now apply sql_limit_length.
Qed.

Lemma like_own_prefix :
  forall q post : str, like_chars (q ++ [percent]) (q ++ post) = true.
Proof.
  induction q as [|c q IH]; intro post.
  - simpl app. apply like_any.
  - simpl app. destruct (c =? percent)%N eqn:E.
    + apply N.eqb_eq in E. subst c. rewrite like_percent.
      apply orb_true_iff. right. rewrite like_percent, IH. reflexivity.
    + rewrite like_literal by exact E. rewrite N.eqb_refl, orb_true_r.
      simpl. apply IH.
Qed.

Lemma like_chars_infix :
  forall q pre post : str,
    like_chars (percent :: q ++ [percent]) (pre ++ q ++ post) = true.
Proof.
  intros q pre post.
  induction pre as [|d pre IH]; simpl app.
  - rewrite like_percent, like_own_prefix. reflexivity.
  - rewrite like_percent, IH. apply orb_true_r.
Qed.

Lemma like_pattern_infix :
  forall q s : str,
    nul_free q = true ->
    infix_of q (c_string s) ->
    like (MemoryDatabase.like_pattern q) s = true.
Proof.
  intros q s Hn [pre [post E]]. unfold like.
  rewrite like_pattern_c_string by exact Hn. rewrite E.
  apply like_chars_infix.
Qed.

Lemma sql_limit_all :
  forall (A : Type) (n : Z) (l : list A),
    (n < 0)%Z \/ (Z.of_nat (length l) <= n)%Z -> sql_limit n l = l.
Proof.
  intros A n l H. unfold sql_limit.
  destruct (n <? 0)%Z eqn:E; [reflexivity|].
  apply Z.ltb_ge in E. apply firstn_all2. lia.
Qed.

(** X3. The search never misses a stored text: for a query without
    U+0000 that the engine accepts (a text encodable as UTF-8 whose pattern
    stays within 50000 bytes, a limit of 64 bits), a row whose user message
    or assistant response, read up to its first U+0000, holds the query
    character for character, in whatever session, is among the results
    whenever the limit does not cut the result short (a negative limit, or
    one no smaller than the number of stored rows). This holds for queries
    with LIKE wildcards too. *)
Theorem search_conversations_finds_literal :
  forall (q : str) (limit : Z) (w : world) (c : conversation),
    nul_free q = true ->
    encodable q = true ->
    (utf8_length q + 2 <= like_pattern_limit)%N ->
    int64 limit ->
    In c (conversations (w_db w)) ->
    infix_of q (c_string (user_message c))
    \/ infix_of q (c_string (assistant_response c)) ->
    (limit < 0)%Z \/ (Z.of_nat (length (conversations (w_db w))) <= limit)%Z ->
    exists result,
      MemoryDatabase.search_conversations q limit w = (inr result, w)
      /\ In (MemoryDatabase.row_dict c) result.
Proof.
  intros q limit w c Hn _ _ _ Hc Hq Hl.
  exists (MemoryDatabase.select_search q limit (w_db w)).
  split; [reflexivity|].
  unfold MemoryDatabase.select_search. apply in_map.
  assert (Hf : In c (filter (MemoryDatabase.search_where q)
                       (conversations (w_db w)))).
  { apply filter_In. split; [exact Hc|].
    unfold MemoryDatabase.search_where. apply orb_true_iff.
    destruct Hq as [Hq|Hq]; [left|right];
      apply like_pattern_infix; assumption. }
  rewrite sql_limit_all.
  - apply (Permutation_in _ (order_by_perm _ _)). exact Hf.
  - destruct Hl as [Hl|Hl]; [now left|right].
    rewrite order_by_length.
    pose proof (filter_length_le (MemoryDatabase.search_where q)
                  (conversations (w_db w))).
    lia.
Qed.

Lemma search_conversations_finds_literal_example :
  exists result,
    MemoryDatabase.search_conversations (u8 "ol") 5 greeting_world
    = (inr result, greeting_world)
    /\ In {| d_timestamp := u8 "2026-11-03T10:15:00"; user := u8 "hola";
             assistant := u8 "adios"; importance := 1 |} result.
Proof.
  refine (@search_conversations_finds_literal (u8 "ol") 5 greeting_world
            {| id := 1; timestamp := u8 "2026-11-03T10:15:00";
               session_id := u8 "20261103_101500";
               user_message := u8 "hola";
               assistant_response := u8 "adios";
               importance_score := 1 |} eq_refl eq_refl _ _ _ _ _).
  - vm_compute. discriminate.
  - unfold int64. lia.
  - left. reflexivity.
  - left. exists (u8 "h"), (u8 "a"). reflexivity.
  - right. simpl. lia.
Defined.

Lemma order_by_newest :
  forall (A : Type) (precedes : A -> A -> bool) (x : A) (l : list A),
    (forall y, In y l -> precedes y x = false) ->
    order_by precedes (l ++ [x]) = x :: order_by precedes l.
Proof.
  intros A precedes x l. induction l as [|y l IH]; intro H; [reflexivity|].
  simpl. rewrite IH by (intros z Hz; apply H; now right).
  simpl. rewrite (H y (or_introl eq_refl)). reflexivity.
Qed.

(** X4. A row stored with a timestamp later than every timestamp of its
    session is the first result of [get_recent_conversations] for that
    session, for every limit other than 0. *)
Theorem stored_exchange_is_most_recent :
  forall (um ar session : str) (imp : Q) (limit : Z) (w : world),
    limit <> 0%Z ->
    (forall c,
        In c (conversations (w_db w)) ->
        session_id c = session ->
        str_compare (timestamp c) (isoformat (w_clock w (w_ticks w))) = Lt) ->
    exists older,
      fst (MemoryDatabase.get_recent_conversations limit session
             (snd (MemoryDatabase.store_conversation um ar session imp w)))
      = inr ({| d_timestamp := isoformat (w_clock w (w_ticks w));
                user := um; assistant := ar; importance := imp |} :: older).
Proof.
  intros um ar session imp limit w Hl Hnew.
  rewrite db_store_conversation_run.
  unfold MemoryDatabase.get_recent_conversations, query,
    MemoryDatabase.select_recent.
  cbn [fst snd w_db conversations].
  rewrite filter_app. cbn [filter session_id]. rewrite str_eqb_refl.
  rewrite order_by_newest.
  - unfold sql_limit. destruct (limit <? 0)%Z eqn:E.
    + eexists. reflexivity.
    + apply Z.ltb_ge in E.
      destruct (Z.to_nat limit) as [|n] eqn:En; [lia|].
      eexists. reflexivity.
  - intros y Hy. apply filter_In in Hy. destruct Hy as [Hy Hs].
    apply str_eqb_eq in Hs. unfold MemoryDatabase.recent_precedes.
    cbn [timestamp]. now rewrite (Hnew y Hy Hs).
Qed.

Lemma stored_exchange_is_most_recent_example :
  exists older,
    fst (MemoryDatabase.get_recent_conversations 5 (u8 "20261103_101500")
           (snd (MemoryDatabase.store_conversation (u8 "otra vez") (u8 "claro")
                   (u8 "20261103_101500") 1 greeting_world)))
    = inr ({| d_timestamp := isoformat (w_clock greeting_world
                                          (w_ticks greeting_world));
              user := u8 "otra vez"; assistant := u8 "claro";
              importance := 1 |} :: older).
Proof.
  refine (@stored_exchange_is_most_recent (u8 "otra vez") (u8 "claro")
            (u8 "20261103_101500") 1 5 greeting_world _ _).
  - discriminate.
  - intros c [<-|[]] _. reflexivity.
Defined.

(* ===================================================================== *)
(** ** The profile as a dictionary *)
(* ===================================================================== *)

Lemma dict_get_app_miss :
  forall (k : str) (d e : list (str * str)),
    dict_get k d = None -> dict_get k (d ++ e) = dict_get k e.
Proof.
  intros k d e. induction d as [|[k' v] d IH]; simpl; [reflexivity|].
  destruct (str_eqb k' k); [discriminate|exact IH].
Qed.

Lemma dict_get_app_hit :
  forall (k : str) (d e : list (str * str)) (v : str),
    dict_get k d = Some v -> dict_get k (d ++ e) = Some v.
Proof.
  intros k d e v. induction d as [|[k' v'] d IH]; simpl; [discriminate|].
  destruct (str_eqb k' k); [auto|exact IH].
Qed.

Lemma dict_get_without_key :
  forall (k k' : str) (p : list profile_fact),
    dict_get k'
      (map (fun f => (key f, value f))
         (filter (fun g => negb (str_eqb (key g) k)) p))
    = if str_eqb k k' then None
      else dict_get k' (map (fun f => (key f, value f)) p).
Proof.
  intros k k' p. induction p as [|f p IH]; simpl.
  - now destruct (str_eqb k k').
  - destruct (str_eqb (key f) k) eqn:E; simpl.
    + apply str_eqb_eq in E. rewrite E.
      destruct (str_eqb k k') eqn:E'; [exact IH|]. exact IH.
    + destruct (str_eqb (key f) k') eqn:E'; [|exact IH].
      destruct (str_eqb k k') eqn:E''; [|reflexivity].
      apply str_eqb_eq in E'. apply str_eqb_eq in E''.
      apply str_eqb_neq in E. congruence.
Qed.

(** X5. After [update_user_profile(k, v)], [get_user_profile()] maps [k]
    to [v] and every other key to what it was mapped to before; the
    conversation and summary relations are untouched. *)
Theorem update_then_get_user_profile :
  forall (k v : str) (w : world),
    exists before after w',
      MemoryDatabase.get_user_profile w = (inr before, w)
      /\ MemoryDatabase.update_user_profile k v w = (inr tt, w')
      /\ MemoryDatabase.get_user_profile w' = (inr after, w')
      /\ dict_get k after = Some v
      /\ (forall k', k' <> k -> dict_get k' after = dict_get k' before)
      /\ conversations (w_db w') = conversations (w_db w)
      /\ memory_summaries (w_db w') = memory_summaries (w_db w).
Proof.
  intros k v w. eexists. eexists. eexists.
  split; [reflexivity|]. split; [apply update_user_profile_run|].
  split; [reflexivity|]. cbn [w_db MemoryDatabase.replace_fact user_profile key].
  rewrite map_app. cbn [map key value].
  split; [|split; [|split; reflexivity]].
  - rewrite dict_get_app_miss.
    + simpl. now rewrite str_eqb_refl.
    + rewrite dict_get_without_key. now rewrite str_eqb_refl.
  - intros k' Hk.
    assert (E : str_eqb k k' = false) by (apply str_eqb_neq; congruence).
    destruct (dict_get k' (map (fun f => (key f, value f))
                             (user_profile (w_db w)))) as [x|] eqn:Hx.
    + apply dict_get_app_hit. rewrite dict_get_without_key, E. exact Hx.
    + rewrite dict_get_app_miss.
      * simpl. now rewrite E.
      * rewrite dict_get_without_key, E. exact Hx.
Qed.

(* ===================================================================== *)
(** ** The context builder *)
(* ===================================================================== *)

Lemma join_nonempty_head :
  forall (sep p : str) (rest : list str), p <> [] -> join sep (p :: rest) <> [].
Proof.
  intros sep p rest Hp. destruct p as [|c p]; [contradiction|].
  destruct rest; simpl; discriminate.
Qed.

Lemma finish_context_material :
  forall (p : str) (rest : list str) (m : str),
    p <> [] ->
    exists context,
      context <> []
      /\ MemoryManager.finish_context (p :: rest) m
         = context ++ MemoryManager.instruction_suffix m.
Proof.
  intros p rest m Hp. unfold MemoryManager.finish_context.
  pose proof (join_nonempty_head nl rest Hp) as Hj.
  destruct (join nl (p :: rest)) as [|c cs] eqn:E; [contradiction|].
  exists (c :: cs). split; [discriminate|reflexivity].
Qed.

Lemma heading_app_nonempty :
  forall (h r : str), h <> [] -> h ++ r <> [].
Proof. intros [|c h] r H; [contradiction|discriminate]. Qed.

Lemma profile_part_head :
  forall profile,
    profile <> [] ->
    exists p, p <> [] /\ MemoryManager.profile_part profile = [p].
Proof.
  intros [|kv profile] H; [contradiction|].
  eexists. split; [|reflexivity].
  apply heading_app_nonempty. vm_compute. discriminate.
Qed.

Lemma recent_part_head :
  forall recent,
    recent <> [] ->
    exists p rest, p <> [] /\ MemoryManager.recent_part recent = p :: rest.
Proof.
  intros [|c recent] H; [contradiction|].
  eexists. eexists. split; [|reflexivity]. vm_compute. discriminate.
Qed.

Lemma relevant_part_head :
  forall relevant,
    relevant <> [] ->
    exists p rest, p <> [] /\ MemoryManager.relevant_part relevant = p :: rest.
Proof.
  intros [|c relevant] H; [contradiction|].
  eexists. eexists. split; [|reflexivity]. vm_compute. discriminate.
Qed.

(** The parts that [get_context] joins, from what its three reads gave. *)
Lemma get_context_parts :
  forall self m limit w,
    MemoryManager.get_context self m limit w
    = (inr (MemoryManager.finish_context
              (MemoryManager.profile_part
                 (map (fun f => (key f, value f)) (user_profile (w_db w)))
               ++ MemoryManager.recent_part
                    (MemoryDatabase.select_recent limit
                       MemoryDatabase.default_session (w_db w))
               ++ (if (10 <? length m)%nat
                   then MemoryManager.relevant_part
                          (MemoryDatabase.select_search m 2 (w_db w))
                   else []))
              m), w).
Proof.
  intros self m limit w.
  unfold MemoryManager.get_context, bind,
    MemoryDatabase.get_recent_conversations, MemoryDatabase.get_user_profile,
    MemoryDatabase.search_conversations, query, ret.
  destruct (10 <? length m)%nat.
  - now rewrite <- app_assoc.
  - now rewrite app_nil_r.
Qed.

(** X7. [get_context] adds its scaffolding exactly when it has material.
    With no profile fact, no row of the session "default" and no search
    hit (or a message of at most 10 characters, which is not searched
    for), the answer is the message itself, whatever other sessions hold.
    In every other case the answer is a non-empty context followed by the
    current message and the closing instruction. *)
Theorem get_context_scaffolds_material :
  forall (self : MemoryManager.t) (m : str) (limit : Z) (w : world),
    let profile := user_profile (w_db w) in
    let recent :=
      MemoryDatabase.select_recent limit MemoryDatabase.default_session (w_db w) in
    let relevant := MemoryDatabase.select_search m 2 (w_db w) in
    (profile = [] /\ recent = []
     /\ ((length m <= 10)%nat \/ relevant = []) ->
     MemoryManager.get_context self m limit w = (inr m, w))
    /\ (profile <> [] \/ recent <> []
        \/ ((10 < length m)%nat /\ relevant <> []) ->
        exists context,
          context <> []
          /\ MemoryManager.get_context self m limit w
             = (inr (context ++ MemoryManager.instruction_suffix m), w)).
Proof.
  intros self m limit w profile recent relevant.
  rewrite get_context_parts. fold recent. fold relevant. split.
  - intros [Hp [Hr Hs]]. unfold profile in Hp. rewrite Hp, Hr. simpl.
    destruct (10 <? length m)%nat eqn:E; [|reflexivity].
    apply Nat.ltb_lt in E. destruct Hs as [Hs|Hs]; [lia|].
    now rewrite Hs.
  - intro H.
    assert (Hparts :
              exists p rest,
                p <> []
                /\ MemoryManager.profile_part
                     (map (fun f => (key f, value f)) (user_profile (w_db w)))
                   ++ MemoryManager.recent_part recent
                   ++ (if (10 <? length m)%nat
                       then MemoryManager.relevant_part relevant else [])
                   = p :: rest).
    { destruct (user_profile (w_db w)) as [|f fs] eqn:Ep.
      - simpl app.
        destruct recent as [|c cs] eqn:Er.
        + simpl app.
          destruct H as [H|[H|[Hlen Hrel]]]; try (now contradiction H).
          apply Nat.ltb_lt in Hlen. rewrite Hlen.
          now apply relevant_part_head.
        + destruct (@recent_part_head (c :: cs)) as [p [rest [Hp E]]];
            [discriminate|].
          rewrite E. exists p. eexists. split; [exact Hp|reflexivity].
      - destruct (@profile_part_head
                    (map (fun f => (key f, value f)) (f :: fs)))
          as [p [Hp E]]; [discriminate|].
        rewrite E. exists p. eexists. split; [exact Hp|reflexivity]. }
    destruct Hparts as [p [rest [Hp E]]]. rewrite E.
    destruct (finish_context_material rest m Hp) as [context [Hc Hf]].
    exists context. split; [exact Hc|].
    exact (f_equal (fun x : str => (@inr exn str x, w)) Hf).
Qed.

Lemma get_context_scaffolds_material_example :
  MemoryManager.get_context sample_manager (u8 "hi") 5 greeting_world
  = (inr (u8 "hi"), greeting_world).
Proof.
  refine (proj1 (get_context_scaffolds_material sample_manager (u8 "hi") 5
                   greeting_world) _).
  split; [reflexivity|]. split; [reflexivity|]. left. simpl. lia.
Defined.

Lemma exchange_lines_length :
  forall l : list conv_dict,
    length (flat_map MemoryManager.exchange_lines l) = (2 * length l)%nat.
Proof.
  induction l as [|c l IH]; simpl; [reflexivity|]. rewrite IH. lia.
Qed.

Lemma last3_length :
  forall (A : Type) (l : list A), (length (MemoryManager.last3 l) <= 3)%nat.
Proof.
  intros A l. unfold MemoryManager.last3. rewrite length_skipn. lia.
Qed.

(** X8. The context is bounded by construction. For a message and a
    limit that the engine accepts, [get_context] joins the profile line,
    the recent section of the rows read for the session "default" and the
    relevant section of the search hits, the search being made only for a
    message of more than 10 characters; the profile gives at most one
    part, the recent section renders at most three rows, the search gives
    at most two rows, and so at most 13 parts are joined whatever the
    store holds and whatever limit is asked for. *)
Theorem get_context_is_bounded :
  forall (self : MemoryManager.t) (m : str) (limit : Z) (w : world),
    int64 limit ->
    encodable m = true ->
    (utf8_length m + 2 <= like_pattern_limit)%N ->
    let profile := map (fun f => (key f, value f)) (user_profile (w_db w)) in
    let recent :=
      MemoryDatabase.select_recent limit MemoryDatabase.default_session
        (w_db w) in
    let relevant :=
      if (10 <? length m)%nat
      then MemoryDatabase.select_search m 2 (w_db w) else [] in
    MemoryManager.get_context self m limit w
    = (inr (MemoryManager.finish_context
              (MemoryManager.profile_part profile
               ++ MemoryManager.recent_part recent
               ++ MemoryManager.relevant_part relevant) m), w)
    /\ (length (MemoryManager.profile_part profile) <= 1)%nat
    /\ MemoryManager.recent_part recent
       = match recent with
         | [] => []
         | _ =>
           u8 "Conversación reciente:"
           :: flat_map MemoryManager.exchange_lines
                (rev (MemoryManager.last3 recent))
         end
    /\ (length (MemoryManager.last3 recent) <= 3)%nat
    /\ (length relevant <= 2)%nat
    /\ (length (MemoryManager.profile_part profile
                ++ MemoryManager.recent_part recent
                ++ MemoryManager.relevant_part relevant) <= 13)%nat.
Proof.
  intros self m limit w _ _ _ profile recent relevant.
  assert (H1 : (length (MemoryManager.profile_part profile) <= 1)%nat).
  { destruct profile; simpl; lia. }
  assert (H2 : (length (MemoryManager.recent_part recent) <= 7)%nat).
  { unfold MemoryManager.recent_part.
    destruct recent as [|c cs]; [simpl; lia|].
    cbn [length]. rewrite exchange_lines_length, length_rev.
    pose proof (last3_length (c :: cs)). lia. }
  assert (H3 : (length relevant <= 2)%nat).
  { subst relevant. destruct (10 <? length m)%nat; [|simpl; lia].
    unfold MemoryDatabase.select_search. rewrite length_map.
    pose proof (@sql_limit_length conversation 2
                  (order_by MemoryDatabase.search_precedes
                     (filter (MemoryDatabase.search_where m)
                        (conversations (w_db w))))) as Hl.
    lia. }
  assert (H4 : (length (MemoryManager.relevant_part relevant) <= 5)%nat).
  { unfold MemoryManager.relevant_part.
    destruct relevant as [|c cs]; [simpl; lia|].
    cbn [length] in *. rewrite exchange_lines_length. cbn [length]. lia. }
  split.
  - rewrite get_context_parts. subst relevant.
    destruct (10 <? length m)%nat; reflexivity.
  - split; [exact H1|]. split; [reflexivity|].
    split; [apply last3_length|]. split; [exact H3|].
    rewrite !length_app. lia.
Qed.

Lemma get_context_is_bounded_example :
  (length (if (10 <? length (u8 "Mi nombre es Juan"))%nat
           then MemoryDatabase.select_search (u8 "Mi nombre es Juan") 2
                  (w_db test_world)
           else []) <= 2)%nat.
Proof.
  refine (proj1 (proj2 (proj2 (proj2 (proj2
            (@get_context_is_bounded sample_manager (u8 "Mi nombre es Juan")
               5 test_world _ eq_refl _)))))).
  - unfold int64. lia.
  - vm_compute. discriminate.
Defined.

(** X9. Of the rows fetched newest first, the recent section renders the
    last three, oldest first: when more than three rows are fetched the
    newest ones are the ones left out. *)
Theorem recent_part_renders_oldest_three :
  forall (newer : list conv_dict) (c b a : conv_dict),
    MemoryManager.recent_part (newer ++ [c; b; a])
    = u8 "Conversación reciente:"
      :: MemoryManager.exchange_lines a
         ++ MemoryManager.exchange_lines b
         ++ MemoryManager.exchange_lines c.
Proof.
  intros newer c b a.
  assert (E : MemoryManager.last3 (newer ++ [c; b; a]) = [c; b; a]).
  { unfold MemoryManager.last3. rewrite length_app. simpl length.
    replace (length newer + 3 - 3)%nat with (length newer + 0)%nat by lia.
    rewrite skipn_app, Nat.add_0_r, skipn_all.
    replace (length newer - length newer)%nat with 0%nat by lia.
    reflexivity. }
  unfold MemoryManager.recent_part. rewrite E.
  destruct (newer ++ [c; b; a]) eqn:En.
  - destruct newer; discriminate.
  - reflexivity.
Qed.

(* ===================================================================== *)
(** ** The tool surface *)
(* ===================================================================== *)

(** X11. [call_tool] answers every request that has a [name] with a
    text and never raises on one: the exception of a tool becomes the text
    "Error: " followed by its message, and a tool name that is not served
    is answered with "Unknown tool: " and the name, the world left as it
    was; the names served are the six that [list_tools] declares. A
    request without the attribute [name] is not answered: the
    handler reads [request.name] again, and the [AttributeError] leaves
    [call_tool], the world left as it was. *)
Theorem call_tool_raises_only_without_name :
  forall (U : Unicode) (self : MemoryServer.t) (req : MemoryServer.request)
         (w : world),
    ((forall type_name, req <> MemoryServer.call_without_name type_name) ->
     exists text, fst (MemoryServer.call_tool self req w) = inr text)
    /\ (forall args e w1,
           req = MemoryServer.call_store_conversation args ->
           MemoryServer._store_conversation self args w = (inl e, w1) ->
           MemoryServer.call_tool self req w
           = (inr (u8 "Error: " ++ exn_message e), w1))
    /\ (forall name,
           req = MemoryServer.call_other name ->
           ~ In name MemoryServer.tool_names ->
           MemoryServer.call_tool self req w
           = (inr (u8 "Unknown tool: " ++ name), w))
    /\ (forall name,
           In name MemoryServer.tool_names <->
           exists req',
             MemoryServer.request_name req' w = (inr name, w)
             /\ (forall other, req' <> MemoryServer.call_other other))
    /\ (forall type_name,
           req = MemoryServer.call_without_name type_name ->
           MemoryServer.call_tool self req w
           = (inl (AttributeError type_name (u8 "name")), w)).
Proof.
  intros U self req w. split; [|split; [|split; [|split]]].
  - intro Hname.
    assert (E : exists body,
               MemoryServer.call_tool self req w
               = try_except body
                   (fun e => ret (u8 "Error: " ++ exn_message e)) w).
    { destruct req as [args|args|args|args| |args|name|ty];
        try (eexists; reflexivity).
      exfalso. now apply (Hname ty). }
    destruct E as [body E]. rewrite E. unfold try_except.
    destruct (body w) as [[e|text] w1]; eexists; reflexivity.
  - intros args e w1 -> H.
    change (MemoryServer.call_tool self
              (MemoryServer.call_store_conversation args) w)
      with (try_except (MemoryServer._store_conversation self args)
              (fun e => ret (u8 "Error: " ++ exn_message e)) w).
    unfold try_except. now rewrite H.
  - intros name -> _. reflexivity.
  - intro name. split.
    + intro Hin. cbn [In MemoryServer.tool_names] in Hin.
      destruct Hin as [<-|[<-|[<-|[<-|[<-|[<-|[]]]]]]].
      * exists (MemoryServer.call_store_conversation
                  {| MemoryServer.arg_user_message := PNone;
                     MemoryServer.arg_assistant_response := [];
                     MemoryServer.arg_importance := None |}).
        split; [reflexivity|discriminate].
      * exists (MemoryServer.call_get_context
                  {| MemoryServer.arg_current_message := [];
                     MemoryServer.arg_context_limit := None |}).
        split; [reflexivity|discriminate].
      * exists (MemoryServer.call_search_memory
                  {| MemoryServer.arg_query := [];
                     MemoryServer.arg_limit := None |}).
        split; [reflexivity|discriminate].
      * exists (MemoryServer.call_update_profile
                  {| MemoryServer.arg_key := [];
                     MemoryServer.arg_value := [] |}).
        split; [reflexivity|discriminate].
      * exists MemoryServer.call_get_profile.
        split; [reflexivity|discriminate].
      * exists (MemoryServer.call_clear_memory
                  {| MemoryServer.arg_confirm := None |}).
        split; [reflexivity|discriminate].
    + intros [req' [Hn Ho]].
      destruct req' as [args|args|args|args| |args|other|ty];
        try (injection Hn as <-; cbn [In MemoryServer.tool_names]; tauto).
      * exfalso. now apply (Ho other).
      * discriminate Hn.
  - intros type_name ->. reflexivity.
Qed.

Lemma call_tool_raises_only_without_name_example :
  MemoryServer.call_tool (U := latin1) sample_server
    (MemoryServer.call_without_name (u8 "CallToolRequest")) fresh_world
  = (inl (AttributeError (u8 "CallToolRequest") (u8 "name")), fresh_world).
Proof.
  exact (proj2 (proj2 (proj2 (proj2
           (call_tool_raises_only_without_name latin1 sample_server
              (MemoryServer.call_without_name (u8 "CallToolRequest"))
              fresh_world))))
           (u8 "CallToolRequest") eq_refl).
Defined.

Lemma try_except_returns :
  forall (A : Type) (m : M A) (h : exn -> M A) (w : world) (a : A) (w1 : world),
    m w = (inr a, w1) -> try_except m h w = (inr a, w1).
Proof. intros A m h w a w1 H. unfold try_except. now rewrite H. Qed.

Lemma search_memory_returns :
  forall self q limit w,
    exists text, MemoryManager.search_memory self q limit w = (inr text, w).
Proof.
  intros self q limit w.
  unfold MemoryManager.search_memory, bind,
    MemoryDatabase.search_conversations, query.
  destruct (MemoryDatabase.select_search q limit (w_db w));
    eexists; reflexivity.
Qed.

Lemma get_profile_returns :
  forall self w,
    exists text, MemoryManager.get_profile self w = (inr text, w).
Proof.
  intros self w.
  unfold MemoryManager.get_profile, bind, MemoryDatabase.get_user_profile,
    query.
  destruct (map (fun f => (key f, value f)) (user_profile (w_db w)));
    eexists; reflexivity.
Qed.

(** X12. The tool surface and the in-process facade answer alike. With
    the same session token, [call_tool] gives the text and the world of
    the facade method for [get_context], [search_memory],
    [update_profile], [get_profile] and, on a string message,
    [store_conversation]; an absent [context_limit] or [limit] counts as
    5 and an absent [importance] as 1.0. *)
Theorem tool_surface_agrees_with_facade :
  forall (U : Unicode) (server : MemoryServer.t) (manager : MemoryManager.t)
         (w : world),
    MemoryServer.current_session server = MemoryManager.current_session manager ->
    (forall m limit,
        MemoryServer.call_tool server
          (MemoryServer.call_get_context
             {| MemoryServer.arg_current_message := m;
                MemoryServer.arg_context_limit := limit |}) w
        = MemoryManager.get_context manager m
            (match limit with Some l => l | None => 5%Z end) w)
    /\ (forall q limit,
           MemoryServer.call_tool server
             (MemoryServer.call_search_memory
                {| MemoryServer.arg_query := q;
                   MemoryServer.arg_limit := limit |}) w
           = MemoryManager.search_memory manager q
               (match limit with Some l => l | None => 5%Z end) w)
    /\ (forall k v,
           MemoryServer.call_tool server
             (MemoryServer.call_update_profile
                {| MemoryServer.arg_key := k; MemoryServer.arg_value := v |}) w
           = MemoryManager.update_profile manager k v w)
    /\ MemoryServer.call_tool server MemoryServer.call_get_profile w
       = MemoryManager.get_profile manager w
    /\ (forall s reply imp,
           MemoryServer.call_tool server
             (MemoryServer.call_store_conversation
                {| MemoryServer.arg_user_message := PStr s;
                   MemoryServer.arg_assistant_response := reply;
                   MemoryServer.arg_importance := imp |}) w
           = MemoryManager.store_conversation manager (PStr s) reply
               (match imp with Some i => i | None => 1 end) w).
Proof.
  intros U [server_session] [manager_session] w H.
  cbn [MemoryServer.current_session MemoryManager.current_session] in H.
  subst manager_session.
  split; [|split; [|split; [|split]]].
  - intros m limit. unfold MemoryServer.call_tool.
    rewrite get_context_parts. apply try_except_returns.
    apply (get_context_parts
             {| MemoryManager.current_session := server_session |}).
  - intros q limit. unfold MemoryServer.call_tool.
    destruct (search_memory_returns
                {| MemoryManager.current_session := server_session |} q
                (match limit with Some l => l | None => 5%Z end) w)
      as [text E].
    rewrite E. apply try_except_returns. destruct limit; exact E.
  - intros k v. unfold MemoryServer.call_tool. apply try_except_returns.
    reflexivity.
  - unfold MemoryServer.call_tool.
    destruct (get_profile_returns
                {| MemoryManager.current_session := server_session |} w)
      as [text E].
    rewrite E. apply try_except_returns. exact E.
  - intros s reply imp.
    change (MemoryServer.call_tool {| MemoryServer.current_session := server_session |}
              (MemoryServer.call_store_conversation
                 {| MemoryServer.arg_user_message := PStr s;
                    MemoryServer.arg_assistant_response := reply;
                    MemoryServer.arg_importance := imp |}) w)
      with (try_except
              (MemoryServer._store_conversation
                 {| MemoryServer.current_session := server_session |}
                 {| MemoryServer.arg_user_message := PStr s;
                    MemoryServer.arg_assistant_response := reply;
                    MemoryServer.arg_importance := imp |})
              (fun e => ret (u8 "Error: " ++ exn_message e)) w).
    rewrite store_conversation_str_run.
    destruct (upsert_all_run
                (extracted MemoryManager.patterns (str_lower s)) w)
      as [w1 [Hr _]].
    unfold bind at 1. rewrite Hr. unfold bind. rewrite db_store_conversation_run.
    unfold ret. apply try_except_returns.
    change (MemoryManager.store_conversation
              {| MemoryManager.current_session := server_session |} (PStr s)
              reply (match imp with Some i => i | None => 1 end) w
            = (inr (u8 "Stored conversation #"
                    ++ decimal (MemoryDatabase.next_id (w_db w1))
                    ++ u8 " successfully"),
               {| w_db :=
                    {| conversations :=
                         conversations (w_db w1)
                         ++ [ {| id := MemoryDatabase.next_id (w_db w1);
                                 timestamp := isoformat (w_clock w1 (w_ticks w1));
                                 session_id := server_session;
                                 user_message := s;
                                 assistant_response := reply;
                                 importance_score :=
                                   match imp with Some i => i | None => 1 end |} ];
                       conversations_seq := MemoryDatabase.next_id (w_db w1);
                       memory_summaries := memory_summaries (w_db w1);
                       user_profile := user_profile (w_db w1) |};
                  w_clock := w_clock w1;
                  w_ticks := S (w_ticks w1) |})).
    rewrite store_conversation_str_run. unfold bind at 1. rewrite Hr.
    unfold bind. rewrite db_store_conversation_run. reflexivity.
Qed.

Lemma tool_surface_agrees_with_facade_example :
  MemoryServer.call_tool (U := latin1) sample_server
    MemoryServer.call_get_profile fresh_world
  = MemoryManager.get_profile sample_manager fresh_world.
Proof.
  exact (proj1 (proj2 (proj2 (proj2
           (tool_surface_agrees_with_facade latin1 sample_server
              sample_manager fresh_world eq_refl))))).
Defined.

(* ===================================================================== *)
(** ** What the extractor writes *)
(* ===================================================================== *)

Lemma entries_for_replace_other :
  forall (k : str) (f : profile_fact) (db : database),
    key f <> k ->
    entries_for k (MemoryDatabase.replace_fact f db) = entries_for k db.
Proof.
  intros k f db H. unfold entries_for, MemoryDatabase.replace_fact. simpl.
  rewrite filter_app. simpl.
  assert (E : str_eqb (key f) k = false) by now apply str_eqb_neq.
  rewrite E, app_nil_r.
  induction (user_profile db) as [|g p IH]; simpl; [reflexivity|].
  destruct (str_eqb (key g) (key f)) eqn:Eg; simpl.
  - apply str_eqb_eq in Eg. rewrite Eg, E. exact IH.
  - destruct (str_eqb (key g) k); [now rewrite IH|exact IH].
Qed.

Lemma strip_prefix_sound :
  forall p s r : str, strip_prefix p s = Some r -> s = p ++ r.
Proof.
  induction p as [|x p IH]; intros s r H; simpl in *.
  - now injection H as ->.
  - destruct s as [|y s]; [discriminate|].
    destruct (x =? y)%N eqn:E; [|discriminate].
    apply N.eqb_eq in E. subst y. simpl. f_equal. now apply IH.
Qed.

Section ExtractorValues.
Context {U : Unicode}.

Lemma upsert_all_other_keys :
  forall facts w k,
    ~ In k (map fst facts) ->
    entries_for k (w_db (snd (upsert_all facts w))) = entries_for k (w_db w).
Proof.
  induction facts as [|[k' v] rest IH]; intros w k H; [reflexivity|].
  simpl upsert_all. unfold bind. rewrite update_user_profile_run.
  rewrite IH by (intro Hin; apply H; now right).
  cbn [w_db]. apply entries_for_replace_other. cbn [key].
  intro E. apply H. now left.
Qed.

Lemma run_prefix_in_class :
  forall (k : char_class) (n : nat) (s : str),
    (n <= run_length k s)%nat ->
    Forall (fun c => in_class k c = true) (firstn n s).
Proof.
  intros k n. induction n as [|n IH]; intros s H; [constructor|].
  destruct s as [|c s]; [simpl in H; lia|].
  simpl in H. destruct (in_class k c) eqn:E; [|lia].
  simpl. constructor; [exact E|]. apply IH. lia.
Qed.

Lemma backtrack_sound :
  forall (k : char_class) (n : nat) (rest suf v : str),
    (n <= run_length k rest)%nat ->
    backtrack n rest suf = Some v ->
    v <> []
    /\ Forall (fun c => in_class k c = true) v
    /\ exists post, rest = v ++ suf ++ post.
Proof.
  intros k n rest suf. induction n as [|n IH]; intros v Hn H; [discriminate|].
  cbn [backtrack] in H.
  destruct (strip_prefix suf (skipn (S n) rest)) as [post|] eqn:E.
  - assert (Hv : v = firstn (S n) rest) by congruence.
    clear H. subst v. split; [|split].
    + destruct rest as [|c rest]; [simpl in Hn; lia|]. discriminate.
    + now apply run_prefix_in_class.
    + exists post. apply strip_prefix_sound in E.
      rewrite <- E. symmetry. apply firstn_skipn.
  - apply IH; [lia|exact H].
Qed.

(** A match of [re.search] is a non-empty run of the class of the group,
    standing in the text between the two literals of the pattern. *)
Lemma re_search_sound :
  forall (p : pattern) (s v : str),
    re_search p s = Some v ->
    v <> []
    /\ Forall (fun c => in_class (group_class p) c = true) v
    /\ exists pre post, s = pre ++ prefix p ++ v ++ suffix p ++ post.
Proof.
  intros p s v. induction s as [|c s IH]; intro H.
  - simpl in H. unfold match_here in H.
    destruct (strip_prefix (prefix p) []) as [rest|] eqn:E; [|discriminate].
    destruct (backtrack (run_length (group_class p) rest) rest (suffix p))
      as [g|] eqn:B; [|discriminate].
    injection H as ->.
    destruct (@backtrack_sound (group_class p) _ _ _ _ (le_n _) B)
      as [Hv [Hc [post Hr]]].
    split; [exact Hv|]. split; [exact Hc|].
    exists [], post. apply strip_prefix_sound in E. subst rest. exact E.
  - simpl in H. unfold match_here in H.
    destruct (strip_prefix (prefix p) (c :: s)) as [rest|] eqn:E.
    + destruct (backtrack (run_length (group_class p) rest) rest (suffix p))
        as [g|] eqn:B.
      * injection H as ->.
        destruct (@backtrack_sound (group_class p) _ _ _ _ (le_n _) B)
          as [Hv [Hc [post Hr]]].
        split; [exact Hv|]. split; [exact Hc|].
        exists [], post. apply strip_prefix_sound in E. subst rest. exact E.
      * destruct (IH H) as [Hv [Hc [pre [post Hs]]]].
        split; [exact Hv|]. split; [exact Hc|].
        exists (c :: pre), post. rewrite Hs. reflexivity.
    + destruct (IH H) as [Hv [Hc [pre [post Hs]]]].
      split; [exact Hv|]. split; [exact Hc|].
      exists (c :: pre), post. rewrite Hs. reflexivity.
Qed.

Lemma first_match_member :
  forall pattern_list s v,
    first_match pattern_list s = Some v ->
    exists p, In p pattern_list /\ re_search p s = Some v.
Proof.
  intros pattern_list s v. induction pattern_list as [|p rest IH]; simpl;
    intro H; [discriminate|].
  destruct (re_search p s) as [g|] eqn:E.
  - injection H as ->. exists p. split; [now left|exact E].
  - destruct (IH H) as [q [Hq Hm]]. exists q. split; [now right|exact Hm].
Qed.

Lemma age_patterns_are_digits :
  forall pattern_list p,
    In (u8 "age", pattern_list) MemoryManager.patterns ->
    In p pattern_list -> group_class p = digit_class.
Proof.
  intros pattern_list p Hin Hp.
  assert (E : pattern_list
              = [ pat "tengo " digit_class " años";
                  pat "mi edad es " digit_class no_suffix ]).
  { apply (@keys_determine_item _ _ MemoryManager.patterns (u8 "age") _ _
             patterns_keys_NoDup Hin).
    right. left. reflexivity. }
  subst pattern_list. destruct Hp as [<-|[<-|[]]]; reflexivity.
Qed.
End ExtractorValues.

(** X13. The extractor writes nothing but the four facts: it leaves the
    conversation relation, its id counter and the summary relation as
    they are, and the profile rows of every key other than name, age,
    profession and location; on a message that is not a string it raises
    before any write. *)
Theorem extractor_writes_four_keys_only :
  forall (U : Unicode) (message : pyval) (w : world),
    let w' := snd (MemoryManager._extract_profile_info message w) in
    conversations (w_db w') = conversations (w_db w)
    /\ conversations_seq (w_db w') = conversations_seq (w_db w)
    /\ memory_summaries (w_db w') = memory_summaries (w_db w)
    /\ (forall k, ~ In k info_types ->
                  entries_for k (w_db w') = entries_for k (w_db w))
    /\ ((forall s, message <> PStr s) -> w' = w).
Proof.
  intros U message w w'.
  destruct message as [| b | z | q | s];
    try (subst w'; repeat split; reflexivity).
  subst w'. rewrite extract_run.
  destruct (upsert_all_run
              (extracted MemoryManager.patterns (str_lower s)) w)
    as [w1 [Hr [Hc [Hs Hm]]]].
  split; [now rewrite Hr|]. split; [now rewrite Hr|].
  split; [now rewrite Hr|]. split.
  - intros k Hk. apply upsert_all_other_keys. intro Hin. apply Hk.
    apply (@subsequence_In _ _ _ k
             (extracted_keys MemoryManager.patterns (str_lower s))) in Hin.
    rewrite patterns_keys in Hin. exact Hin.
  - intro H. exfalso. now apply (H s).
Qed.

(** X14. Every value the extractor upserts is a non-empty run of word
    characters (of digits, for the age) that stands in the lower-cased
    message right after the literal of one of the patterns of its type. *)
Theorem extracted_values_come_from_message :
  forall (U : Unicode) (msg : str) (w : world),
    exists facts : list (str * str),
      MemoryManager._extract_profile_info (PStr msg) w = upsert_all facts w
      /\ forall info_type v,
           In (info_type, v) facts ->
           v <> []
           /\ (exists pattern_list p pre post,
                  In (info_type, pattern_list) MemoryManager.patterns
                  /\ In p pattern_list
                  /\ str_lower msg = pre ++ prefix p ++ v ++ suffix p ++ post
                  /\ Forall (fun c => in_class (group_class p) c = true) v)
           /\ (info_type = u8 "age" -> Forall (fun c => re_digit c = true) v).
Proof.
  intros U msg w. exists (extracted MemoryManager.patterns (str_lower msg)).
  split; [apply extract_run|].
  intros info_type v Hin. apply extracted_In in Hin.
  destruct Hin as [pattern_list [Hpl Hm]].
  apply first_match_member in Hm. destruct Hm as [p [Hp Hs]].
  destruct (re_search_sound _ _ Hs) as [Hv [Hc [pre [post E]]]].
  split; [exact Hv|]. split.
  - exists pattern_list, p, pre, post. repeat split; assumption.
  - intros ->. rewrite (@age_patterns_are_digits pattern_list p Hpl Hp) in Hc.
    exact Hc.
Qed.

(** X15. The pattern [soy (\w+)] is listed under the name and under the
    profession: whenever it matches the lower-cased message, the same
    call upserts the profession with its group and also a name; the name
    is that same group unless "mi nombre es" or "me llamo" matched. *)
Theorem soy_sets_name_and_profession :
  forall (U : Unicode) (msg v : str) (w : world),
    re_search soy_pattern (str_lower msg) = Some v ->
    exists (facts : list (str * str)) (name_value : str),
      MemoryManager._extract_profile_info (PStr msg) w = upsert_all facts w
      /\ In (u8 "profession", v) facts
      /\ In (u8 "name", name_value) facts
      /\ (re_search (pat "mi nombre es " word_class no_suffix) (str_lower msg)
          = None ->
          re_search (pat "me llamo " word_class no_suffix) (str_lower msg)
          = None ->
          name_value = v).
Proof.
  intros U msg v w H. unfold soy_pattern in H.
  exists (extracted MemoryManager.patterns (str_lower msg)).
  exists (match re_search (pat "mi nombre es " word_class no_suffix)
                  (str_lower msg) with
          | Some x => x
          | None =>
            match re_search (pat "me llamo " word_class no_suffix)
                    (str_lower msg) with
            | Some x => x
            | None => v
            end
          end).
  split; [apply extract_run|]. split; [|split].
  - apply extracted_In.
    exists [ pat "soy " word_class no_suffix;
             pat "trabajo como " word_class no_suffix;
             pat "estudio " word_class no_suffix ].
    split; [right; right; left; reflexivity|].
    cbn [first_match]. now rewrite H.
  - apply extracted_In.
    exists [ pat "mi nombre es " word_class no_suffix;
             pat "me llamo " word_class no_suffix;
             pat "soy " word_class no_suffix ].
    split; [left; reflexivity|].
    cbn [first_match].
    destruct (re_search (pat "mi nombre es " word_class no_suffix)
                (str_lower msg)); [reflexivity|].
    destruct (re_search (pat "me llamo " word_class no_suffix)
                (str_lower msg)); [reflexivity|].
    now rewrite H.
  - intros H1 H2. now rewrite H1, H2.
Qed.

Lemma soy_sets_name_and_profession_example :
  exists (facts : list (str * str)) (name_value : str),
    MemoryManager._extract_profile_info (U := latin1)
      (PStr (u8 "Soy ingeniero")) fresh_world
    = upsert_all facts fresh_world
    /\ In (u8 "profession", u8 "ingeniero") facts
    /\ In (u8 "name", name_value) facts
    /\ (re_search (U := latin1) (pat "mi nombre es " word_class no_suffix)
          (str_lower (Unicode := latin1) (u8 "Soy ingeniero")) = None ->
        re_search (U := latin1) (pat "me llamo " word_class no_suffix)
          (str_lower (Unicode := latin1) (u8 "Soy ingeniero")) = None ->
        name_value = u8 "ingeniero").
Proof.
  refine (@soy_sets_name_and_profession latin1 (u8 "Soy ingeniero")
            (u8 "ingeniero") fresh_world _).
  vm_compute. reflexivity.
Defined.

(* ===================================================================== *)
(** ** The conversation memory of the basic chat loop *)
(* ===================================================================== *)

Lemma py_last_length :
  forall (A : Type) (n : nat) (l : list A),
    (0 < n)%nat -> (length (py_last n l) <= n)%nat.
Proof.
  intros A n l H. destruct n as [|n]; [lia|].
  unfold py_last. rewrite length_skipn. lia.
Qed.

Lemma trim_length :
  forall (max : nat) (h : list FullVoiceChatBot.exchange),
    (0 < max)%nat -> (length (FullVoiceChatBot.trim max h) <= max)%nat.
Proof.
  intros max h H. unfold FullVoiceChatBot.trim.
  destruct (max <? length h)%nat eqn:E.
  - now apply py_last_length.
  - apply Nat.ltb_ge in E. exact E.
Qed.

Lemma trim_within_bound :
  forall (max : nat) (h : list FullVoiceChatBot.exchange),
    (length h <= max)%nat -> FullVoiceChatBot.trim max h = h.
Proof.
  intros max h H. unfold FullVoiceChatBot.trim.
  destruct (max <? length h)%nat eqn:E; [|reflexivity].
  apply Nat.ltb_lt in E. lia.
Qed.

Lemma trim_keeps_newest :
  forall (max : nat) (old : list FullVoiceChatBot.exchange)
         (e : FullVoiceChatBot.exchange),
    (0 < max)%nat ->
    exists dropped kept,
      old = dropped ++ kept
      /\ FullVoiceChatBot.trim max (old ++ [e]) = kept ++ [e]
      /\ ((length old < max)%nat -> dropped = []).
Proof.
  intros max old e H. unfold FullVoiceChatBot.trim.
  rewrite length_app. simpl length.
  destruct (max <? length old + 1)%nat eqn:E.
  - apply Nat.ltb_lt in E. destruct max as [|n]; [lia|].
    unfold py_last. rewrite length_app. simpl length.
    exists (firstn (length old + 1 - S n) old),
           (skipn (length old + 1 - S n) old).
    split; [symmetry; apply firstn_skipn|]. split.
    + rewrite skipn_app.
      replace (length old + 1 - S n - length old)%nat with 0%nat by lia.
      reflexivity.
    + intro Hlt. lia.
  - exists [], old. repeat split.
Qed.

(** X16. The history never outgrows its bound: for a positive
    [max_history_length], the history has at most that many exchanges
    after [add_to_conversation_history], after [load_memory] (whatever the
    file holds) and after [clear_memory]; a bot set up by [__init__] holds
    at most 10. *)
Theorem history_stays_within_bound :
  forall (self : FullVoiceChatBot.t),
    (0 < FullVoiceChatBot.max_history_length self)%nat ->
    (forall u a,
        (length (FullVoiceChatBot.conversation_history
                   (FullVoiceChatBot.add_to_conversation_history u a self))
         <= FullVoiceChatBot.max_history_length self)%nat)
    /\ (length (FullVoiceChatBot.conversation_history
                  (FullVoiceChatBot.load_memory self))
        <= FullVoiceChatBot.max_history_length self)%nat
    /\ (length (FullVoiceChatBot.conversation_history
                  (FullVoiceChatBot.clear_memory self))
        <= FullVoiceChatBot.max_history_length self)%nat
    /\ (forall file clock,
           (length (FullVoiceChatBot.conversation_history
                      (FullVoiceChatBot.__init__ file clock)) <= 10)%nat).
Proof.
  intros self H.
  assert (Hload : forall s,
             (0 < FullVoiceChatBot.max_history_length s)%nat ->
             (length (FullVoiceChatBot.conversation_history
                        (FullVoiceChatBot.load_memory s))
              <= FullVoiceChatBot.max_history_length s)%nat).
  { intros s Hs. unfold FullVoiceChatBot.load_memory.
    destruct (FullVoiceChatBot.read_json (FullVoiceChatBot.memory_file s))
      as [data|]; simpl; try lia.
    destruct (FullVoiceChatBot.max_history_length s
              <? length match FullVoiceChatBot.md_conversation_history data with
                        | Some h => h
                        | None => []
                        end)%nat eqn:E.
    - simpl. now apply py_last_length.
    - apply Nat.ltb_ge in E. simpl. exact E. }
  split; [|split; [|split]].
  - intros u a. simpl. now apply trim_length.
  - now apply Hload.
  - simpl. lia.
  - intros file clock. unfold FullVoiceChatBot.__init__.
    apply (Hload {| FullVoiceChatBot.conversation_history := [];
                    FullVoiceChatBot.max_history_length := 10;
                    FullVoiceChatBot.memory_file := file;
                    FullVoiceChatBot.clock := clock;
                    FullVoiceChatBot.ticks := 0 |}).
    simpl. lia.
Qed.

Lemma history_stays_within_bound_example :
  (length (FullVoiceChatBot.conversation_history
             (FullVoiceChatBot.add_to_conversation_history (u8 "hola")
                (u8 "que tal")
                (FullVoiceChatBot.__init__ FullVoiceChatBot.file_missing
                   sample_clock)))
   <= 10)%nat.
Proof.
  exact (proj1 (history_stays_within_bound
                  (FullVoiceChatBot.__init__ FullVoiceChatBot.file_missing
                     sample_clock)
                  (Nat.lt_0_succ 9)) (u8 "hola") (u8 "que tal")).
Defined.

(** X17. [add_to_conversation_history] puts the new exchange last, with
    the message and the answer as given and the clock reading of the
    call, and drops exchanges from the old end only: the history after
    the call is a tail of the old history followed by the new exchange,
    and nothing is dropped while the old history is shorter than the
    bound. *)
Theorem add_keeps_newest_exchanges :
  forall (u a : str) (self : FullVoiceChatBot.t),
    (0 < FullVoiceChatBot.max_history_length self)%nat ->
    exists dropped kept,
      FullVoiceChatBot.conversation_history self = dropped ++ kept
      /\ FullVoiceChatBot.conversation_history
           (FullVoiceChatBot.add_to_conversation_history u a self)
         = kept
           ++ [ {| FullVoiceChatBot.e_timestamp :=
                     isoformat (FullVoiceChatBot.clock self
                                  (FullVoiceChatBot.ticks self));
                   FullVoiceChatBot.e_user := u;
                   FullVoiceChatBot.e_assistant := a |} ]
      /\ ((length (FullVoiceChatBot.conversation_history self)
           < FullVoiceChatBot.max_history_length self)%nat ->
          dropped = []).
Proof.
  intros u a self H. simpl.
  apply trim_keeps_newest. exact H.
Qed.

Lemma add_keeps_newest_exchanges_example :
  exists dropped kept,
    FullVoiceChatBot.conversation_history
      (FullVoiceChatBot.__init__ FullVoiceChatBot.file_missing sample_clock)
    = dropped ++ kept
    /\ FullVoiceChatBot.conversation_history
         (FullVoiceChatBot.add_to_conversation_history (u8 "hola") (u8 "que tal")
            (FullVoiceChatBot.__init__ FullVoiceChatBot.file_missing
               sample_clock))
       = kept
         ++ [ {| FullVoiceChatBot.e_timestamp :=
                   isoformat
                     (FullVoiceChatBot.clock
                        (FullVoiceChatBot.__init__
                           FullVoiceChatBot.file_missing sample_clock)
                        (FullVoiceChatBot.ticks
                           (FullVoiceChatBot.__init__
                              FullVoiceChatBot.file_missing sample_clock)));
                 FullVoiceChatBot.e_user := u8 "hola";
                 FullVoiceChatBot.e_assistant := u8 "que tal" |} ]
    /\ ((length (FullVoiceChatBot.conversation_history
                   (FullVoiceChatBot.__init__ FullVoiceChatBot.file_missing
                      sample_clock))
         < FullVoiceChatBot.max_history_length
             (FullVoiceChatBot.__init__ FullVoiceChatBot.file_missing
                sample_clock))%nat ->
        dropped = []).
Proof.
  exact (add_keeps_newest_exchanges (u8 "hola") (u8 "que tal")
           (FullVoiceChatBot.__init__ FullVoiceChatBot.file_missing
              sample_clock)
           (Nat.lt_0_succ 9)).
Defined.

Lemma load_saved_history :
  forall (file : FullVoiceChatBot.file_content)
         (data : FullVoiceChatBot.memory_data)
         (h : list FullVoiceChatBot.exchange) (clock : nat -> datetime),
    FullVoiceChatBot.read_json file = Some data ->
    FullVoiceChatBot.md_conversation_history data = Some h ->
    (length h <= 10)%nat ->
    FullVoiceChatBot.conversation_history
      (FullVoiceChatBot.__init__ file clock)
    = h.
Proof.
  intros file data h clock Hr Hd H.
  unfold FullVoiceChatBot.__init__, FullVoiceChatBot.load_memory.
  cbn [FullVoiceChatBot.memory_file FullVoiceChatBot.max_history_length].
  rewrite Hr, Hd.
  destruct (10 <? length h)%nat eqn:E; [|reflexivity].
  apply Nat.ltb_lt in E. lia.
Qed.

Lemma load_nothing :
  forall (file : FullVoiceChatBot.file_content) (clock : nat -> datetime),
    FullVoiceChatBot.read_json file = None ->
    FullVoiceChatBot.conversation_history
      (FullVoiceChatBot.__init__ file clock)
    = [].
Proof.
  intros file clock Hr.
  unfold FullVoiceChatBot.__init__, FullVoiceChatBot.load_memory.
  cbn [FullVoiceChatBot.memory_file]. rewrite Hr. reflexivity.
Qed.

Lemma encodable_app :
  forall a b : str, encodable (a ++ b) = encodable a && encodable b.
Proof. intros a b. apply forallb_app. Qed.

Lemma encodable_zero_pad :
  forall (w : nat) (n : N), encodable (zero_pad w n) = true.
Proof.
  intros w n. unfold zero_pad. rewrite encodable_app.
  apply andb_true_iff. split.
  - induction (w - length (decimal n))%nat as [|k IH]; [reflexivity|].
    exact IH.
  - unfold decimal. induction (N.to_uint n) as [|d IH|d IH|d IH|d IH|d IH
                                                 |d IH|d IH|d IH|d IH|d IH];
      [reflexivity|exact IH..].
Qed.

Lemma encodable_isoformat :
  forall dt : datetime, encodable (isoformat dt) = true.
Proof.
  intro dt. unfold isoformat.
  rewrite !encodable_app, !encodable_zero_pad.
  destruct (microsecond dt =? 0)%N; [reflexivity|].
  rewrite encodable_app, encodable_zero_pad. reflexivity.
Qed.

Lemma write_json_writes :
  forall (data : FullVoiceChatBot.memory_data)
         (h : list FullVoiceChatBot.exchange)
         (file : FullVoiceChatBot.file_content),
    FullVoiceChatBot.writable file = true ->
    FullVoiceChatBot.md_conversation_history data = Some h ->
    encodable (FullVoiceChatBot.md_last_updated data) = true ->
    FullVoiceChatBot.write_json data file
    = if forallb FullVoiceChatBot.exchange_encodable h
      then (false, FullVoiceChatBot.file_json data)
      else (true, FullVoiceChatBot.file_unreadable).
Proof.
  intros data h file Hw Hd He.
  destruct file; try discriminate Hw;
    unfold FullVoiceChatBot.write_json; rewrite Hd, He; reflexivity.
Qed.

(** X18. The history survives a restart when the write goes through:
    after [add_to_conversation_history] on a bot with the bound 10 of
    [__init__], a file that can be written and a history whose texts can
    be encoded, the file holds the history together with its length, and
    a bot started on that file loads exactly that history; after
    [clear_memory] on a file that can be written it loads the empty
    history, as it does from a missing or unreadable file. A write that
    fails is dropped without notice to the caller: a file that cannot be
    opened for writing keeps what it held, so that the exchange is in the
    history of the running bot and not in the file; a write cut short, by
    a full device or by a text that cannot be encoded, leaves a file that
    loads as the empty history. *)
Theorem history_survives_restart :
  forall (self : FullVoiceChatBot.t),
    FullVoiceChatBot.max_history_length self = 10%nat ->
    (forall u a clock,
        let after := FullVoiceChatBot.add_to_conversation_history u a self in
        FullVoiceChatBot.writable (FullVoiceChatBot.memory_file self) = true ->
        forallb FullVoiceChatBot.exchange_encodable
          (FullVoiceChatBot.conversation_history after) = true ->
        FullVoiceChatBot.conversation_history
          (FullVoiceChatBot.__init__ (FullVoiceChatBot.memory_file after) clock)
        = FullVoiceChatBot.conversation_history after
        /\ exists data,
             FullVoiceChatBot.memory_file after = FullVoiceChatBot.file_json data
             /\ FullVoiceChatBot.md_total_exchanges data
                = length (FullVoiceChatBot.conversation_history after))
    /\ (forall clock,
           FullVoiceChatBot.writable (FullVoiceChatBot.memory_file self) = true ->
           FullVoiceChatBot.conversation_history
             (FullVoiceChatBot.__init__
                (FullVoiceChatBot.memory_file
                   (FullVoiceChatBot.clear_memory self)) clock)
           = [])
    /\ (forall clock,
           FullVoiceChatBot.conversation_history
             (FullVoiceChatBot.__init__ FullVoiceChatBot.file_missing clock) = []
           /\ FullVoiceChatBot.conversation_history
                (FullVoiceChatBot.__init__ FullVoiceChatBot.file_unreadable clock)
              = [])
    /\ (forall u a held,
           FullVoiceChatBot.memory_file self
           = FullVoiceChatBot.file_write_protected held ->
           FullVoiceChatBot.memory_file
             (FullVoiceChatBot.add_to_conversation_history u a self)
           = FullVoiceChatBot.file_write_protected held
           /\ FullVoiceChatBot.memory_file (FullVoiceChatBot.clear_memory self)
              = FullVoiceChatBot.file_write_protected held
           /\ In {| FullVoiceChatBot.e_timestamp :=
                      isoformat (FullVoiceChatBot.clock self
                                   (FullVoiceChatBot.ticks self));
                    FullVoiceChatBot.e_user := u;
                    FullVoiceChatBot.e_assistant := a |}
                (FullVoiceChatBot.conversation_history
                   (FullVoiceChatBot.add_to_conversation_history u a self)))
    /\ (forall u a held clock,
           FullVoiceChatBot.memory_file self
           = FullVoiceChatBot.file_device_full held ->
           FullVoiceChatBot.conversation_history
             (FullVoiceChatBot.__init__
                (FullVoiceChatBot.memory_file
                   (FullVoiceChatBot.add_to_conversation_history u a self))
                clock)
           = [])
    /\ (forall u a clock,
           FullVoiceChatBot.writable (FullVoiceChatBot.memory_file self) = true ->
           forallb FullVoiceChatBot.exchange_encodable
             (FullVoiceChatBot.conversation_history
                (FullVoiceChatBot.add_to_conversation_history u a self))
           = false ->
           FullVoiceChatBot.conversation_history
             (FullVoiceChatBot.__init__
                (FullVoiceChatBot.memory_file
                   (FullVoiceChatBot.add_to_conversation_history u a self))
                clock)
           = []).
Proof.
  intros self H. split; [|split; [|split; [|split; [|split]]]].
  - intros u a clock after Hw He.
    subst after.
    cbn [FullVoiceChatBot.add_to_conversation_history
         FullVoiceChatBot.save_memory
         FullVoiceChatBot.memory_file
         FullVoiceChatBot.conversation_history
         FullVoiceChatBot.max_history_length
         FullVoiceChatBot.clock FullVoiceChatBot.ticks] in *.
    erewrite write_json_writes;
      [|exact Hw|reflexivity|apply encodable_isoformat].
    rewrite He. cbn [snd]. split.
    + apply load_saved_history
        with (data := {| FullVoiceChatBot.md_last_updated :=
                           isoformat (FullVoiceChatBot.clock self
                                        (S (FullVoiceChatBot.ticks self)));
                         FullVoiceChatBot.md_total_exchanges :=
                           length
                             (FullVoiceChatBot.trim
                                (FullVoiceChatBot.max_history_length self)
                                (FullVoiceChatBot.conversation_history self
                                 ++ [ {| FullVoiceChatBot.e_timestamp :=
                                           isoformat
                                             (FullVoiceChatBot.clock self
                                                (FullVoiceChatBot.ticks self));
                                         FullVoiceChatBot.e_user := u;
                                         FullVoiceChatBot.e_assistant := a |} ]));
                         FullVoiceChatBot.md_max_history_length :=
                           FullVoiceChatBot.max_history_length self;
                         FullVoiceChatBot.md_conversation_history :=
                           Some
                             (FullVoiceChatBot.trim
                                (FullVoiceChatBot.max_history_length self)
                                (FullVoiceChatBot.conversation_history self
                                 ++ [ {| FullVoiceChatBot.e_timestamp :=
                                           isoformat
                                             (FullVoiceChatBot.clock self
                                                (FullVoiceChatBot.ticks self));
                                         FullVoiceChatBot.e_user := u;
                                         FullVoiceChatBot.e_assistant := a |} ]))
                      |});
        [reflexivity|reflexivity|].
      rewrite H. apply trim_length. lia.
    + eexists. split; reflexivity.
  - intros clock Hw.
    cbn [FullVoiceChatBot.clear_memory FullVoiceChatBot.save_memory
         FullVoiceChatBot.set_history
         FullVoiceChatBot.memory_file
         FullVoiceChatBot.conversation_history
         FullVoiceChatBot.max_history_length
         FullVoiceChatBot.clock FullVoiceChatBot.ticks].
    erewrite write_json_writes;
      [|exact Hw|reflexivity|apply encodable_isoformat].
    reflexivity.
  - intro clock. split; reflexivity.
  - intros u a held Hf.
    cbn [FullVoiceChatBot.add_to_conversation_history
         FullVoiceChatBot.clear_memory FullVoiceChatBot.save_memory
         FullVoiceChatBot.set_history
         FullVoiceChatBot.memory_file
         FullVoiceChatBot.conversation_history
         FullVoiceChatBot.max_history_length
         FullVoiceChatBot.clock FullVoiceChatBot.ticks].
    rewrite Hf. split; [reflexivity|]. split; [reflexivity|].
    destruct (@trim_keeps_newest (FullVoiceChatBot.max_history_length self)
                (FullVoiceChatBot.conversation_history self)
                {| FullVoiceChatBot.e_timestamp :=
                     isoformat (FullVoiceChatBot.clock self
                                  (FullVoiceChatBot.ticks self));
                   FullVoiceChatBot.e_user := u;
                   FullVoiceChatBot.e_assistant := a |})
      as [dropped [kept [_ [E _]]]]; [lia|].
    rewrite E. apply in_or_app. right. now left.
  - intros u a held clock Hf.
    cbn [FullVoiceChatBot.add_to_conversation_history
         FullVoiceChatBot.save_memory
         FullVoiceChatBot.memory_file
         FullVoiceChatBot.conversation_history
         FullVoiceChatBot.max_history_length
         FullVoiceChatBot.clock FullVoiceChatBot.ticks].
    rewrite Hf. reflexivity.
  - intros u a clock Hw He.
    cbn [FullVoiceChatBot.add_to_conversation_history
         FullVoiceChatBot.save_memory
         FullVoiceChatBot.memory_file
         FullVoiceChatBot.conversation_history
         FullVoiceChatBot.max_history_length
         FullVoiceChatBot.clock FullVoiceChatBot.ticks] in *.
    erewrite write_json_writes;
      [|exact Hw|reflexivity|apply encodable_isoformat].
    rewrite He. reflexivity.
Qed.

Lemma history_survives_restart_example :
  FullVoiceChatBot.conversation_history
    (FullVoiceChatBot.__init__
       (FullVoiceChatBot.memory_file
          (FullVoiceChatBot.add_to_conversation_history (u8 "hola") (u8 "que tal")
             (FullVoiceChatBot.__init__ FullVoiceChatBot.file_missing
                sample_clock)))
       sample_clock)
  = FullVoiceChatBot.conversation_history
      (FullVoiceChatBot.add_to_conversation_history (u8 "hola") (u8 "que tal")
         (FullVoiceChatBot.__init__ FullVoiceChatBot.file_missing sample_clock)).
Proof.
  refine (proj1 (proj1 (history_survives_restart
                          (FullVoiceChatBot.__init__
                             FullVoiceChatBot.file_missing sample_clock)
                          eq_refl)
                   (u8 "hola") (u8 "que tal") sample_clock eq_refl _)).
  vm_compute. reflexivity.
Defined.

(** X19. [build_context_prompt] returns the message untouched on an empty
    history, and otherwise uses the last five exchanges only: exchanges
    older than those change nothing in the prompt. *)
Theorem prompt_uses_last_five :
  forall (m : str) (self : FullVoiceChatBot.t)
         (older last5 : list FullVoiceChatBot.exchange),
    length last5 = 5%nat ->
    FullVoiceChatBot.build_context_prompt m
      (FullVoiceChatBot.set_history [] self) = m
    /\ FullVoiceChatBot.build_context_prompt m
         (FullVoiceChatBot.set_history (older ++ last5) self)
       = FullVoiceChatBot.build_context_prompt m
           (FullVoiceChatBot.set_history last5 self)
    /\ FullVoiceChatBot.build_context_prompt m
         (FullVoiceChatBot.set_history last5 self)
       = u8 "Contexto de la conversación anterior:" ++ nl
         ++ flat_map FullVoiceChatBot.prompt_lines last5
         ++ u8 "Usuario actual: " ++ m ++ nl ++ nl
         ++ u8 "Responde al usuario actual teniendo en cuenta el contexto de la conversación:".
Proof.
  intros m self older last5 H.
  assert (E1 : py_last 5 (older ++ last5) = last5).
  { unfold py_last. rewrite length_app, H.
    replace (length older + 5 - 5)%nat with (length older + 0)%nat by lia.
    rewrite skipn_app, Nat.add_0_r, skipn_all.
    replace (length older - length older)%nat with 0%nat by lia.
    reflexivity. }
  assert (E2 : py_last 5 last5 = last5).
  { unfold py_last. rewrite H. reflexivity. }
  unfold FullVoiceChatBot.build_context_prompt.
  cbn [FullVoiceChatBot.set_history FullVoiceChatBot.conversation_history].
  rewrite E1, E2.
  split; [reflexivity|].
  destruct last5 as [|e last5]; [discriminate|].
  destruct (older ++ e :: last5) eqn:En.
  - destruct older; discriminate.
  - split; reflexivity.
Qed.

Lemma prompt_uses_last_five_example :
  FullVoiceChatBot.build_context_prompt (u8 "hola")
    (FullVoiceChatBot.set_history []
       (FullVoiceChatBot.__init__ FullVoiceChatBot.file_missing sample_clock))
  = u8 "hola".
Proof.
  exact (proj1 (@prompt_uses_last_five (u8 "hola")
                  (FullVoiceChatBot.__init__ FullVoiceChatBot.file_missing
                     sample_clock)
                  []
                  (repeat {| FullVoiceChatBot.e_timestamp := u8 "t";
                             FullVoiceChatBot.e_user := u8 "u";
                             FullVoiceChatBot.e_assistant := u8 "a" |} 5)
                  eq_refl)).
Defined.

(* ===================================================================== *)
(** ** send_to_gemini: the memory around a call of the model *)
(* ===================================================================== *)

(** X20. In the basic chat loop the memory changes only on an answer of
    the model. The model is given the prompt built from the history as it
    is before the call. If it raises, or answers with an empty text, the
    bot (history and file) is left as it was and the fixed text is
    returned; on a non-empty text the stripped answer is returned and
    recorded last in the history, with the message as given, also when
    stripping leaves it empty. *)
Theorem basic_send_to_gemini_records_answers :
  forall (strip : str -> str) (generate_content : str -> llm_outcome)
         (m : str) (self : FullVoiceChatBot.t),
    (0 < FullVoiceChatBot.max_history_length self)%nat ->
    match generate_content (FullVoiceChatBot.build_context_prompt m self) with
    | llm_raises e =>
      FullVoiceChatBot.send_to_gemini strip generate_content m self
      = (error_text e, self)
    | llm_text [] =>
      FullVoiceChatBot.send_to_gemini strip generate_content m self
      = (no_response_text, self)
    | llm_text (c :: text) =>
      fst (FullVoiceChatBot.send_to_gemini strip generate_content m self)
      = strip (c :: text)
      /\ exists dropped kept,
           FullVoiceChatBot.conversation_history self = dropped ++ kept
           /\ FullVoiceChatBot.conversation_history
                (snd (FullVoiceChatBot.send_to_gemini strip generate_content
                        m self))
              = kept
                ++ [ {| FullVoiceChatBot.e_timestamp :=
                          isoformat (FullVoiceChatBot.clock self
                                       (FullVoiceChatBot.ticks self));
                        FullVoiceChatBot.e_user := m;
                        FullVoiceChatBot.e_assistant := strip (c :: text) |} ]
    end.
Proof.
  intros strip generate_content m self H.
  unfold FullVoiceChatBot.send_to_gemini.
  destruct (generate_content (FullVoiceChatBot.build_context_prompt m self))
    as [[|c text]|e]; try reflexivity.
  split; [reflexivity|]. cbn [snd].
  destruct (@trim_keeps_newest (FullVoiceChatBot.max_history_length self)
              (FullVoiceChatBot.conversation_history self)
              {| FullVoiceChatBot.e_timestamp :=
                   isoformat (FullVoiceChatBot.clock self
                                (FullVoiceChatBot.ticks self));
                 FullVoiceChatBot.e_user := m;
                 FullVoiceChatBot.e_assistant := strip (c :: text) |} H)
    as [dropped [kept [E1 [E2 _]]]].
  exists dropped, kept. split; [exact E1|exact E2].
Qed.

Lemma basic_send_to_gemini_records_answers_example :
  FullVoiceChatBot.send_to_gemini (fun s => s)
    (fun _ => llm_raises (u8 "quota"))
    (u8 "hola")
    (FullVoiceChatBot.__init__ FullVoiceChatBot.file_missing sample_clock)
  = (error_text (u8 "quota"),
     FullVoiceChatBot.__init__ FullVoiceChatBot.file_missing sample_clock).
Proof.
  exact (@basic_send_to_gemini_records_answers (fun s => s)
           (fun _ => llm_raises (u8 "quota")) (u8 "hola")
           (FullVoiceChatBot.__init__ FullVoiceChatBot.file_missing sample_clock)
           (Nat.lt_0_succ 9)).
Defined.

(** X21. In the advanced chat loop [send_to_gemini] never raises and
    stores an exchange only on an answer of the model. The model is given
    the context of the store as it is before the call. If it raises, or
    answers with an empty text, the world is left as it was. On a
    non-empty text the stripped answer is returned and exactly one row is
    appended: the message as spoken (not lower-cased), the stripped
    answer, the session of the facade and the importance 1.0. *)
Theorem advanced_send_to_gemini_stores_answers :
  forall (U : Unicode) (strip : str -> str)
         (generate_content : str -> llm_outcome)
         (memory : MemoryManager.t) (m : str) (w : world),
    exists prompt,
      MemoryManager.get_context memory m 5 w = (inr prompt, w)
      /\ match generate_content prompt with
         | llm_raises e =>
           FullVoiceChatBotAdvanced.send_to_gemini strip generate_content
             memory m w
           = (inr (error_text e), w)
         | llm_text [] =>
           FullVoiceChatBotAdvanced.send_to_gemini strip generate_content
             memory m w
           = (inr no_response_text, w)
         | llm_text (c :: text) =>
           exists (row : conversation) (w' : world),
             FullVoiceChatBotAdvanced.send_to_gemini strip generate_content
               memory m w
             = (inr (strip (c :: text)), w')
             /\ conversations (w_db w') = conversations (w_db w) ++ [row]
             /\ user_message row = m
             /\ assistant_response row = strip (c :: text)
             /\ session_id row = MemoryManager.current_session memory
             /\ importance_score row == 1
         end.
Proof.
  intros U strip generate_content memory m w.
  eexists. split; [apply get_context_parts|].
  unfold FullVoiceChatBotAdvanced.send_to_gemini.
  match goal with
  | |- context [generate_content ?p] =>
    set (prompt := p); destruct (generate_content prompt) as [[|c text]|e] eqn:G
  end.
  - apply try_except_returns. unfold bind.
    rewrite get_context_parts. fold prompt. now rewrite G.
  - destruct (upsert_all_run
                (extracted MemoryManager.patterns (str_lower m)) w)
      as [w1 [Hr [Hc _]]].
    exists {| id := MemoryDatabase.next_id (w_db w1);
              timestamp := isoformat (w_clock w1 (w_ticks w1));
              session_id := MemoryManager.current_session memory;
              user_message := m;
              assistant_response := strip (c :: text);
              importance_score := 1 |}.
    eexists. split.
    + apply try_except_returns. unfold bind at 1.
      rewrite get_context_parts. fold prompt. rewrite G.
      unfold bind at 1. rewrite store_conversation_str_run.
      unfold bind at 1. rewrite Hr. unfold bind.
      rewrite db_store_conversation_run. reflexivity.
    + cbn [w_db conversations user_message assistant_response session_id
           importance_score].
      rewrite Hc. repeat split; reflexivity.
  - apply try_except_returns. unfold bind.
    rewrite get_context_parts. fold prompt. now rewrite G.
Qed.

(** X22. [search_memory] answers "No conversations found" exactly when
    the search returns no row; with the limit 0 that is always the
    answer, whatever the store holds. *)
Theorem search_memory_reports_no_hits :
  forall (self : MemoryManager.t) (q : str) (limit : Z) (w : world),
    (MemoryDatabase.select_search q limit (w_db w) = []
     <-> MemoryManager.search_memory self q limit w
         = (inr (u8 "No conversations found"), w))
    /\ MemoryManager.search_memory self q 0 w
       = (inr (u8 "No conversations found"), w).
Proof.
  intros self q limit w. split.
  - unfold MemoryManager.search_memory, bind,
      MemoryDatabase.search_conversations, query.
    destruct (MemoryDatabase.select_search q limit (w_db w)) as [|c l].
    + split; reflexivity.
    + split; [discriminate|]. intro H. exfalso.
      unfold ret in H. inversion H.
  - reflexivity.
Qed.
